(** * Giraffe plushie generator: a shallow embedding of [app.component.ts]

    The component builds a stylised giraffe out of three.js primitives,
    keeps one model in the scene, regenerates it when a parameter signal
    changes, exports it through [GLTFExporter] and resizes the viewport.

    Numbers: a JavaScript [number] is read as a real number.  Every
    statement below is about the arithmetic the code writes down, taken
    over the reals; the rounding of IEEE doubles (and of GLSL floats in
    the shader) is outside the model.  The one division whose divisor can
    be zero, width by height for the camera's aspect, is modelled with
    JavaScript's infinities and [NaN].

    three.js itself is not part of the repository.  Its geometries are
    modelled by what the code relies on: a primitive is a shape
    descriptor together with the list of transforms baked into its
    vertices, in application order; a merged buffer is the ordered list
    of the primitives it was folded from. *)

From Stdlib Require Import String Reals Lra List ZArith Lia Bool.
Import ListNotations.
Open Scope R_scope.

(** ** three.js geometry, as far as the component uses it *)

Definition number := R.

Record Vector3 := mkVector3 { vx : number; vy : number; vz : number }.

Definition origin : Vector3 := mkVector3 0 0 0.

Definition vsub (a b : Vector3) : Vector3 :=
  mkVector3 (vx a - vx b) (vy a - vy b) (vz a - vz b).

Definition vscale (k : number) (a : Vector3) : Vector3 :=
  mkVector3 (k * vx a) (k * vy a) (k * vz a).

Inductive Shape :=
| BoxGeometry (width height depth : number)
| CylinderGeometry (radiusTop radiusBottom height : number)
| SphereGeometry (radius : number) (widthSegments heightSegments : nat).

(** The in-place vertex transforms of [BufferGeometry]. *)
Inductive Transform :=
| Translate (x y z : number)
| RotateX (angle : number)
| RotateY (angle : number).

Record BufferGeometry := mkGeo {
  shape : Shape;
  baked : list Transform  (* oldest first *)
}.

Definition newGeometry (s : Shape) : BufferGeometry := mkGeo s [].

Definition translate (x y z : number) (g : BufferGeometry) : BufferGeometry :=
  mkGeo (shape g) (baked g ++ [Translate x y z]).

Definition rotateX (angle : number) (g : BufferGeometry) : BufferGeometry :=
  mkGeo (shape g) (baked g ++ [RotateX angle]).

Definition rotateY (angle : number) (g : BufferGeometry) : BufferGeometry :=
  mkGeo (shape g) (baked g ++ [RotateY angle]).

(** [clone] copies the vertex data; the descriptor is a value already. *)
Definition clone (g : BufferGeometry) : BufferGeometry := g.

(** What one transform does to one vertex (three.js [Matrix4.makeTranslation],
    [makeRotationX], [makeRotationY]). *)
Definition applyTransform (t : Transform) (v : Vector3) : Vector3 :=
  match t with
  | Translate x y z => mkVector3 (vx v + x) (vy v + y) (vz v + z)
  | RotateX a =>
      mkVector3 (vx v) (cos a * vy v - sin a * vz v) (sin a * vy v + cos a * vz v)
  | RotateY a =>
      mkVector3 (cos a * vx v + sin a * vz v) (vy v) (cos a * vz v - sin a * vx v)
  end.

Definition applyBaked (ts : list Transform) (v : Vector3) : Vector3 :=
  fold_left (fun acc t => applyTransform t acc) ts v.

(** Where a point of the untransformed primitive ends up. *)
Definition vertexOf (g : BufferGeometry) (local : Vector3) : Vector3 :=
  applyBaked (baked g) local.

(** Centre of the primitive after its baked transforms. *)
Definition centerOf (g : BufferGeometry) : Vector3 := vertexOf g origin.

(** The defining lengths of a shape, in constructor order. *)
Definition dimensions (s : Shape) : list number :=
  match s with
  | BoxGeometry w h d => [w; h; d]
  | CylinderGeometry rt rb h => [rt; rb; h]
  | SphereGeometry r _ _ => [r]
  end.

(** Centre of the bottom cap of an (untransformed) cylinder: three.js
    cylinders run along the y axis from [-height/2] to [height/2]. *)
Definition bottomCap (s : Shape) : Vector3 :=
  match s with
  | CylinderGeometry _ _ h => mkVector3 0 (- (h / 2)) 0
  | BoxGeometry _ h _ => mkVector3 0 (- (h / 2)) 0
  | SphereGeometry r _ _ => mkVector3 0 (- r) 0
  end.

(** [BufferGeometryUtils.mergeGeometries]: vertex data concatenated in
    input order, nothing welded. *)
Definition mergeGeometries (l : list BufferGeometry) : list BufferGeometry := l.

(** ** Materials and the injected fragment code *)

Inductive Material :=
| MeshStandardMaterial (color : string) (roughness : number) (textured : bool)
| MeshBasicMaterial (color : Z).

(** [createTexturedMaterial]: a standard material whose [onBeforeCompile]
    hook patches the noise code into the shader. *)
Definition createTexturedMaterial (baseColorValue : string) : Material :=
  MeshStandardMaterial baseColorValue 0.8 true.

Record vec2 := mkVec2 { st_x : number; st_y : number }.

Definition dot2 (a b : vec2) : number := st_x a * st_x b + st_y a * st_y b.

(** GLSL [fract]. *)
Definition fract (x : number) : number := frac_part x.

(** [float random(vec2 st)] of the fragment prolog. *)
Definition random (st : vec2) : number :=
  fract (sin (dot2 st (mkVec2 12.9898 78.233)) * 43758.5453123).

Definition noise (vWorldPosition : Vector3) : number :=
  random (mkVec2 (vx vWorldPosition * 20.0) (vy vWorldPosition * 20.0)) * 0.5
  + random (mkVec2 (vy vWorldPosition * 20.0) (vz vWorldPosition * 20.0)) * 0.5.

Definition factorOfNoise (n : number) : number := 0.9 + n * 0.15.

Definition textureFactor (vWorldPosition : Vector3) : number :=
  factorOfNoise (noise vWorldPosition).

Record RGB := mkRGB { red : number; green : number; blue : number }.

Definition scaleRGB (c : RGB) (k : number) : RGB :=
  mkRGB (red c * k) (green c * k) (blue c * k).

(** The patched statement [diffuseColor.rgb *= textureFactor], run right
    after [color_fragment] has put the base colour in [diffuseColor].
    Untextured materials keep their colour. *)
Definition colorFragment (m : Material) (diffuseColor : RGB)
    (vWorldPosition : Vector3) : RGB :=
  match m with
  | MeshStandardMaterial _ _ true =>
      scaleRGB diffuseColor (textureFactor vWorldPosition)
  | _ => diffuseColor
  end.

(** ** [Math.random] *)

(** The unseeded generator is unknown; a [RandomSource] is the stream of
    the numbers in [[0,1)] it hands to the component's own calls of
    [Math.random], in the order of these calls.  three.js draws from the
    same generator for the identifiers of the objects it constructs; those
    draws fall between the component's and are not part of the stream, so
    the stream says nothing about how far the generator itself has
    advanced. *)
Definition RandomSource := nat -> number.

Definition Gen (A : Type) := RandomSource -> A * RandomSource.

Definition ret {A} (a : A) : Gen A := fun s => (a, s).

Definition bind {A B} (m : Gen A) (k : A -> Gen B) : Gen B :=
  fun s => let (a, s') := m s in k a s'.

Notation "x <- m ;; k" := (bind m (fun x => k))
  (at level 61, m at next level, right associativity).

Definition Math_random : Gen number :=
  fun s => (s 0%nat, fun n => s (S n)).

(** [forEach] whose body pushes one geometry per element. *)
Fixpoint forEachPush {A} (f : A -> Gen BufferGeometry) (l : list A)
    : Gen (list BufferGeometry) :=
  match l with
  | [] => ret []
  | a :: l' => g <- f a ;; gs <- forEachPush f l' ;; ret (g :: gs)
  end.

Definition unitInterval (s : RandomSource) : Prop :=
  forall n, 0 <= s n < 1.

(** ** Meshes and the model *)

(** The six disposable objects a model owns.  [eye2] is a clone of
    [eye1], so both eye meshes point at the same geometry and material. *)
Inductive Slot :=
| GiraffeMaterial | SpotMaterial | EyeMaterial
| EyeGeo | MergedGiraffeGeo | MergedSpotGeo.

Definition Slot_eqb (a b : Slot) : bool :=
  match a, b with
  | GiraffeMaterial, GiraffeMaterial | SpotMaterial, SpotMaterial
  | EyeMaterial, EyeMaterial | EyeGeo, EyeGeo
  | MergedGiraffeGeo, MergedGiraffeGeo | MergedSpotGeo, MergedSpotGeo => true
  | _, _ => false
  end.

Record Mesh := mkMesh {
  geometry : list BufferGeometry;   (* the primitives in the vertex buffer *)
  geometryRef : Slot;
  material : Material;
  materialRef : Slot;
  position : Vector3;
  castShadow : bool;
  receiveShadow : bool
}.

Definition newMesh (geo : list BufferGeometry) (gref : Slot)
    (mat : Material) (mref : Slot) : Mesh :=
  mkMesh geo gref mat mref origin false false.

Definition position_set (x y z : number) (m : Mesh) : Mesh :=
  mkMesh (geometry m) (geometryRef m) (material m) (materialRef m)
         (mkVector3 x y z) (castShadow m) (receiveShadow m).

Definition set_position_x (x : number) (m : Mesh) : Mesh :=
  position_set x (vy (position m)) (vz (position m)) m.

Definition withShadows (m : Mesh) : Mesh :=
  mkMesh (geometry m) (geometryRef m) (material m) (materialRef m)
         (position m) true true.

(** [Mesh.clone] shares geometry and material with the original. *)
Definition cloneMesh (m : Mesh) : Mesh := m.

(** A [THREE.Group]; [oid] is the identity of the JavaScript object. *)
Record Group := mkGroup {
  oid : nat;
  children : list Mesh;
  position_y : number
}.

(** ** [createGiraffe] *)

Record SpotSite := mkSite { site_p : number; site_angle : number }.

Definition createGiraffe (id : nat)
    (neckLength legLength hornLength headSize : number)
    (color spotColorValue : string) : Gen Group :=
  let giraffeMaterial := createTexturedMaterial color in
  let spotMaterial := createTexturedMaterial spotColorValue in
  let eyeMaterial := MeshBasicMaterial 0%Z in
  let giraffeGeometries : list BufferGeometry := [] in
  let spotGeometries : list BufferGeometry := [] in
  (* Body (the origin reference) *)
  let bodyHeight := 3 in
  let bodyGeo := newGeometry (BoxGeometry 3 bodyHeight 5) in
  let giraffeGeometries := giraffeGeometries ++ [bodyGeo] in
  (* Legs *)
  let legGeo := newGeometry (CylinderGeometry 0.4 0.3 legLength) in
  let legY := - (bodyHeight / 2) - (legLength / 2) in
  let giraffeGeometries := giraffeGeometries ++
    map (fun pos => translate (vx pos) legY (vz pos) (clone legGeo))
        [ mkVector3 1.2 0 2; mkVector3 (-1.2) 0 2;
          mkVector3 1.2 0 (-2); mkVector3 (-1.2) 0 (-2) ] in
  (* Tail *)
  let tailLength := 2.0 in
  let tailAngle := PI / 4 in
  let tailAttachY := 1.0 in
  let tailAttachZ := -2.5 in
  let tailGeo := newGeometry (CylinderGeometry 0.1 0.08 tailLength) in
  let tailGeo := translate 0 (- tailLength / 2) 0 tailGeo in
  let tailGeo := rotateX tailAngle tailGeo in
  let tailGeo := translate 0 tailAttachY tailAttachZ tailGeo in
  let giraffeGeometries := giraffeGeometries ++ [tailGeo] in
  (* Tail tassel *)
  let tasselSize := 0.4 in
  let tasselGeo := newGeometry (BoxGeometry tasselSize tasselSize tasselSize) in
  let tasselY := tailAttachY - tailLength * cos tailAngle in
  let tasselZ := tailAttachZ - tailLength * sin tailAngle in
  let tasselGeo := translate 0 tasselY tasselZ tasselGeo in
  let spotGeometries := spotGeometries ++ [tasselGeo] in
  (* Neck *)
  let bodyTopY := bodyHeight / 2 in
  let neckRadiusBottom := 0.95 in
  let neckRadiusTop := 0.75 in
  let neckGeo :=
    newGeometry (CylinderGeometry neckRadiusTop neckRadiusBottom neckLength) in
  let neckCenterY := bodyTopY + (neckLength / 2) in
  let neckBaseZ := 1.5 in
  let neckGeo := translate 0 neckCenterY neckBaseZ neckGeo in
  let giraffeGeometries := giraffeGeometries ++ [neckGeo] in
  (* Head *)
  let neckTopY := bodyTopY + neckLength in
  let headDim_w := 2 * headSize in
  let headDim_h := 2 * headSize in
  let headDim_d := 2.5 * headSize in
  let headGeo := newGeometry (BoxGeometry headDim_w headDim_h headDim_d) in
  let headCenterY := neckTopY + (headDim_h / 2) in
  let headCenterZ := 2 in
  let headGeo := translate 0 headCenterY headCenterZ headGeo in
  let giraffeGeometries := giraffeGeometries ++ [headGeo] in
  (* Snout *)
  let snoutDim_w := 1.5 * headSize in
  let snoutDim_h := 0.99 * headSize in
  let snoutDim_d := 1.5 * headSize in
  let snoutGeo := newGeometry (BoxGeometry snoutDim_w snoutDim_h snoutDim_d) in
  let snoutGeo :=
    translate 0 (headCenterY - 0.5 * headSize)
              (headCenterZ + (headDim_d / 2)) snoutGeo in
  let spotGeometries := spotGeometries ++ [snoutGeo] in
  (* Horns *)
  let hornRadius := 0.2 * headSize in
  let hornGeo :=
    newGeometry (CylinderGeometry hornRadius hornRadius hornLength) in
  let headTopY := headCenterY + (headDim_h / 2) in
  let hornY := headTopY + (hornLength / 2) in
  let hornX := 0.7 * headSize in
  let hornZ := headCenterZ - 0.5 * headSize in
  let horn1Geo := translate hornX hornY hornZ (clone hornGeo) in
  let spotGeometries := spotGeometries ++ [horn1Geo] in
  let horn2Geo := translate (- hornX) hornY hornZ (clone hornGeo) in
  let spotGeometries := spotGeometries ++ [horn2Geo] in
  (* Ears *)
  let earDim_w := 0.8 * headSize in
  let earDim_h := 0.6 * headSize in
  let earDim_d := 0.2 * headSize in
  let earGeo := newGeometry (BoxGeometry earDim_w earDim_h earDim_d) in
  let earX := (headDim_w / 2) + (earDim_w / 2) in
  let earY := headCenterY + 0.5 * headSize in
  let earZ := headCenterZ in
  let ear1Geo := translate earX earY earZ (clone earGeo) in
  let giraffeGeometries := giraffeGeometries ++ [ear1Geo] in
  let ear2Geo := translate (- earX) earY earZ (clone earGeo) in
  let giraffeGeometries := giraffeGeometries ++ [ear2Geo] in
  (* Eyes *)
  let eyeRadius := 0.2 * headSize in
  let eyeGeo := newGeometry (SphereGeometry eyeRadius 16 16) in
  let eye1 := newMesh [eyeGeo] EyeGeo eyeMaterial EyeMaterial in
  let eyeX := 0.7 * headSize in
  let eyeY := headCenterY + 0.3 * headSize in
  let eyeZ := headCenterZ + (headDim_d / 2) - (eyeRadius / 2) in
  let eye1 := position_set eyeX eyeY eyeZ eye1 in
  let eye2 := cloneMesh eye1 in
  let eye2 := set_position_x (- eyeX) eye2 in
  let giraffe_children := [eye1; eye2] in
  (* Spots (body) *)
  zSpots <- forEachPush (fun p =>
      spotWidth <- (r <- Math_random ;; ret (0.5 + r * 0.4)) ;;
      spotHeight <- (r <- Math_random ;; ret (0.5 + r * 0.4)) ;;
      let spotGeoZ := newGeometry (BoxGeometry spotWidth spotHeight 0.1) in
      ret (translate (vx p) (vy p) (vz p) spotGeoZ))
    [ mkVector3 1 1 2.5; mkVector3 (-1.2) 0.5 2.5; mkVector3 0.5 (-1) 2.5;
      mkVector3 1 1 (-2.5); mkVector3 (-1.2) 0.5 (-2.5);
      mkVector3 0.5 (-1) (-2.5) ] ;;
  let spotGeometries := spotGeometries ++ zSpots in
  xSpots <- forEachPush (fun p =>
      spotHeight <- (r <- Math_random ;; ret (0.5 + r * 0.4)) ;;
      spotDepth <- (r <- Math_random ;; ret (0.5 + r * 0.4)) ;;
      let spotGeoX := newGeometry (BoxGeometry 0.1 spotHeight spotDepth) in
      ret (translate (vx p) (vy p) (vz p) spotGeoX))
    [ mkVector3 1.5 1 1.8; mkVector3 1.5 (-0.5) 0; mkVector3 1.5 0.8 (-1.5);
      mkVector3 (-1.5) 1 1.8; mkVector3 (-1.5) (-0.5) 0;
      mkVector3 (-1.5) 0.8 (-1.5) ] ;;
  let spotGeometries := spotGeometries ++ xSpots in
  (* Spots (neck) *)
  neckSpots <- forEachPush (fun site =>
      let p := site_p site in
      let angle := site_angle site in
      spotWidth <- (r <- Math_random ;; ret (0.4 + r * 0.3)) ;;
      spotHeight <- (r <- Math_random ;; ret (0.4 + r * 0.3)) ;;
      let geo := newGeometry (BoxGeometry spotWidth spotHeight 0.1) in
      let y := bodyTopY + p * neckLength in
      let radius := neckRadiusBottom - p * (neckRadiusBottom - neckRadiusTop) in
      let geo := rotateY angle geo in
      let geo :=
        translate (radius * sin angle) y (neckBaseZ + radius * cos angle) geo in
      ret geo)
    [ mkSite 0.2 (PI / 5); mkSite 0.45 (- PI / 3);
      mkSite 0.7 (PI / 1.5); mkSite 0.9 PI ] ;;
  let spotGeometries := spotGeometries ++ neckSpots in
  let giraffe_children :=
    if (0 <? List.length giraffeGeometries)%nat then
      let mergedGiraffeGeo := mergeGeometries giraffeGeometries in
      let giraffeMesh :=
        newMesh mergedGiraffeGeo MergedGiraffeGeo giraffeMaterial GiraffeMaterial in
      giraffe_children ++ [withShadows giraffeMesh]
    else giraffe_children in
  let giraffe_children :=
    if (0 <? List.length spotGeometries)%nat then
      let mergedSpotGeo := mergeGeometries spotGeometries in
      let spotMesh :=
        newMesh mergedSpotGeo MergedSpotGeo spotMaterial SpotMaterial in
      giraffe_children ++ [withShadows spotMesh]
    else giraffe_children in
  (* Lift the giraffe so its feet are at y=0 *)
  ret (mkGroup id giraffe_children (legLength + (bodyHeight / 2))).

(** ** Reading a model *)

Definition meshWith (ref : Slot) (g : Group) : option Mesh :=
  find (fun m => Slot_eqb (geometryRef m) ref) (children g).

Definition geometriesOf (ref : Slot) (g : Group) : list BufferGeometry :=
  match meshWith ref g with
  | Some m => geometry m
  | None => []
  end.

(** The structural group (body colour) and the pattern group (spot colour). *)
Definition structuralGroup (g : Group) : list BufferGeometry :=
  geometriesOf MergedGiraffeGeo g.

Definition patternGroup (g : Group) : list BufferGeometry :=
  geometriesOf MergedSpotGeo g.

Definition eyeMeshes (g : Group) : list Mesh :=
  filter (fun m => Slot_eqb (geometryRef m) EyeGeo) (children g).

(** ** The component state *)

(** The signals behind the input widgets. *)
Record Signals := mkSignals {
  giraffeName : string;
  neckLength : number;
  legLength : number;
  hornLength : number;
  headSize : number;
  giraffeColor : string;
  spotColor : string;
  autoRotate : bool;
  isViewInitialized : bool
}.

Record Container := mkContainer { clientWidth : Z; clientHeight : Z }.

(** What a division of two integers gives in JavaScript: a finite number,
    or an infinity or [NaN] when the divisor is zero. *)
Inductive JsNumber :=
| Finite (r : number)
| PlusInfinity
| MinusInfinity
| NaN.

Definition divide (x y : Z) : JsNumber :=
  if (y =? 0)%Z then
    if (x =? 0)%Z then NaN
    else if (0 <? x)%Z then PlusInfinity else MinusInfinity
  else Finite (IZR x / IZR y).

Record PerspectiveCamera := mkCamera {
  aspect : JsNumber;
  projectionAspect : JsNumber  (* the aspect the projection matrix was built from *)
}.

Definition updateProjectionMatrix (c : PerspectiveCamera) : PerspectiveCamera :=
  mkCamera (aspect c) (aspect c).

Record WebGLRenderer := mkRenderer {
  surfaceWidth : Z;
  surfaceHeight : Z;
  rendererDisposed : bool
}.

Definition setSize (w h : Z) (r : WebGLRenderer) : WebGLRenderer :=
  mkRenderer w h (rendererDisposed r).

Inductive SceneChild :=
| AmbientLight
| DirectionalLight
| Model (g : Group).

(** A disposable object is named by the model that owns it and its slot. *)
Definition Resource := (nat * Slot)%type.

Definition Resource_eqb (a b : Resource) : bool :=
  Nat.eqb (fst a) (fst b) && Slot_eqb (snd a) (snd b).

(** What the rendering backend sees, one entry per effect, newest first. *)
Inductive Event :=
| Created (r : Resource)
| Disposed (r : Resource)
| SceneAdded (id : nat)
| SceneRemoved (id : nat).

Inductive Payload :=
| Bytes (b : list Byte.byte)
| Text (s : string).

Record Download := mkDownload {
  payload : Payload;
  blobType : string;
  filename : string
}.

Record App := mkApp {
  signals : Signals;
  canvasRef : bool;                       (* is the canvas view child there *)
  canvasContainerRef : option Container;
  renderer : option WebGLRenderer;
  scene : list SceneChild;
  camera : option PerspectiveCamera;
  controls_autoRotate : bool;
  animating : bool;
  giraffe : option Group;
  console : list string;                  (* console.error lines, oldest first *)
  exportsStarted : list Group;            (* models handed to the exporter *)
  downloads : list Download;              (* files saved, oldest first *)
  backend : list Event;
  nextId : nat;                           (* identity of the next object *)
  entropy : RandomSource                  (* what the component's next calls get *)
}.

Definition withSignals (f : Signals -> Signals) (a : App) : App :=
  mkApp (f (signals a)) (canvasRef a) (canvasContainerRef a) (renderer a)
        (scene a) (camera a) (controls_autoRotate a) (animating a) (giraffe a)
        (console a) (exportsStarted a) (downloads a) (backend a) (nextId a)
        (entropy a).

Definition set_renderer (r : option WebGLRenderer) (a : App) : App :=
  mkApp (signals a) (canvasRef a) (canvasContainerRef a) r
        (scene a) (camera a) (controls_autoRotate a) (animating a) (giraffe a)
        (console a) (exportsStarted a) (downloads a) (backend a) (nextId a)
        (entropy a).

Definition set_scene (s : list SceneChild) (a : App) : App :=
  mkApp (signals a) (canvasRef a) (canvasContainerRef a) (renderer a)
        s (camera a) (controls_autoRotate a) (animating a) (giraffe a)
        (console a) (exportsStarted a) (downloads a) (backend a) (nextId a)
        (entropy a).

Definition set_camera (c : option PerspectiveCamera) (a : App) : App :=
  mkApp (signals a) (canvasRef a) (canvasContainerRef a) (renderer a)
        (scene a) c (controls_autoRotate a) (animating a) (giraffe a)
        (console a) (exportsStarted a) (downloads a) (backend a) (nextId a)
        (entropy a).

Definition set_controls_autoRotate (b : bool) (a : App) : App :=
  mkApp (signals a) (canvasRef a) (canvasContainerRef a) (renderer a)
        (scene a) (camera a) b (animating a) (giraffe a)
        (console a) (exportsStarted a) (downloads a) (backend a) (nextId a)
        (entropy a).

Definition set_animating (b : bool) (a : App) : App :=
  mkApp (signals a) (canvasRef a) (canvasContainerRef a) (renderer a)
        (scene a) (camera a) (controls_autoRotate a) b (giraffe a)
        (console a) (exportsStarted a) (downloads a) (backend a) (nextId a)
        (entropy a).

Definition set_giraffe (g : option Group) (a : App) : App :=
  mkApp (signals a) (canvasRef a) (canvasContainerRef a) (renderer a)
        (scene a) (camera a) (controls_autoRotate a) (animating a) g
        (console a) (exportsStarted a) (downloads a) (backend a) (nextId a)
        (entropy a).

Definition console_error (msg : string) (a : App) : App :=
  mkApp (signals a) (canvasRef a) (canvasContainerRef a) (renderer a)
        (scene a) (camera a) (controls_autoRotate a) (animating a) (giraffe a)
        (console a ++ [msg]) (exportsStarted a) (downloads a) (backend a)
        (nextId a) (entropy a).

Definition noteExport (g : Group) (a : App) : App :=
  mkApp (signals a) (canvasRef a) (canvasContainerRef a) (renderer a)
        (scene a) (camera a) (controls_autoRotate a) (animating a) (giraffe a)
        (console a) (exportsStarted a ++ [g]) (downloads a) (backend a)
        (nextId a) (entropy a).

Definition emit (e : Event) (a : App) : App :=
  mkApp (signals a) (canvasRef a) (canvasContainerRef a) (renderer a)
        (scene a) (camera a) (controls_autoRotate a) (animating a) (giraffe a)
        (console a) (exportsStarted a) (downloads a) (e :: backend a)
        (nextId a) (entropy a).

Definition allocate (rest : RandomSource) (a : App) : App :=
  mkApp (signals a) (canvasRef a) (canvasContainerRef a) (renderer a)
        (scene a) (camera a) (controls_autoRotate a) (animating a) (giraffe a)
        (console a) (exportsStarted a) (downloads a) (backend a)
        (S (nextId a)) rest.

(** [save]: the blob goes out through a temporary link. *)
Definition save (p : Payload) (type name : string) (a : App) : App :=
  mkApp (signals a) (canvasRef a) (canvasContainerRef a) (renderer a)
        (scene a) (camera a) (controls_autoRotate a) (animating a) (giraffe a)
        (console a) (exportsStarted a) (downloads a ++ [mkDownload p type name])
        (backend a) (nextId a) (entropy a).

Definition saveString (text name : string) : App -> App :=
  save (Text text) "text/plain" name.

Definition saveArrayBuffer (buffer : list Byte.byte) (name : string)
    : App -> App :=
  save (Bytes buffer) "application/octet-stream" name.

(** ** Input handlers: each stores the event's value in its signal *)

Definition onGiraffeNameChange (value : string) : App -> App :=
  withSignals (fun s =>
    mkSignals value (neckLength s) (legLength s) (hornLength s) (headSize s)
              (giraffeColor s) (spotColor s) (autoRotate s)
              (isViewInitialized s)).

Definition onNeckLengthChange (valueAsNumber : number) : App -> App :=
  withSignals (fun s =>
    mkSignals (giraffeName s) valueAsNumber (legLength s) (hornLength s)
              (headSize s) (giraffeColor s) (spotColor s) (autoRotate s)
              (isViewInitialized s)).

Definition onLegLengthChange (valueAsNumber : number) : App -> App :=
  withSignals (fun s =>
    mkSignals (giraffeName s) (neckLength s) valueAsNumber (hornLength s)
              (headSize s) (giraffeColor s) (spotColor s) (autoRotate s)
              (isViewInitialized s)).

Definition onHornLengthChange (valueAsNumber : number) : App -> App :=
  withSignals (fun s =>
    mkSignals (giraffeName s) (neckLength s) (legLength s) valueAsNumber
              (headSize s) (giraffeColor s) (spotColor s) (autoRotate s)
              (isViewInitialized s)).

Definition onHeadSizeChange (valueAsNumber : number) : App -> App :=
  withSignals (fun s =>
    mkSignals (giraffeName s) (neckLength s) (legLength s) (hornLength s)
              valueAsNumber (giraffeColor s) (spotColor s) (autoRotate s)
              (isViewInitialized s)).

Definition onGiraffeColorChange (value : string) : App -> App :=
  withSignals (fun s =>
    mkSignals (giraffeName s) (neckLength s) (legLength s) (hornLength s)
              (headSize s) value (spotColor s) (autoRotate s)
              (isViewInitialized s)).

Definition onSpotColorChange (value : string) : App -> App :=
  withSignals (fun s =>
    mkSignals (giraffeName s) (neckLength s) (legLength s) (hornLength s)
              (headSize s) (giraffeColor s) value (autoRotate s)
              (isViewInitialized s)).

Definition onAutoRotateChange (checked : bool) : App -> App :=
  withSignals (fun s =>
    mkSignals (giraffeName s) (neckLength s) (legLength s) (hornLength s)
              (headSize s) (giraffeColor s) (spotColor s) checked
              (isViewInitialized s)).

Definition set_isViewInitialized (b : bool) : App -> App :=
  withSignals (fun s =>
    mkSignals (giraffeName s) (neckLength s) (legLength s) (hornLength s)
              (headSize s) (giraffeColor s) (spotColor s) (autoRotate s) b).

(** ** Model lifecycle *)

Definition isObject (id : nat) (c : SceneChild) : bool :=
  match c with
  | Model g => Nat.eqb (oid g) id
  | _ => false
  end.

(** [scene.add]: a fresh object is pushed at the end of the children. *)
Definition scene_add (g : Group) (a : App) : App :=
  emit (SceneAdded (oid g)) (set_scene (scene a ++ [Model g]) a).

(** [scene.remove]: nothing happens unless the object is a child. *)
Definition scene_remove (g : Group) (a : App) : App :=
  if existsb (isObject (oid g)) (scene a) then
    emit (SceneRemoved (oid g))
         (set_scene (filter (fun c => negb (isObject (oid g) c)) (scene a)) a)
  else a.

(** The callback of [traverse] on one mesh of the model [owner]. *)
Definition disposeMesh (owner : nat) (a : App) (object : Mesh) : App :=
  let a := emit (Disposed (owner, geometryRef object)) a in
  emit (Disposed (owner, materialRef object)) a.

Definition removeGiraffe (a : App) : App :=
  match giraffe a with
  | Some g =>
      let a := scene_remove g a in
      (* Proper disposal to prevent memory leaks *)
      let a := fold_left (disposeMesh (oid g)) (children g) a in
      set_giraffe None a
  | None => a
  end.

(** The disposable objects [createGiraffe] constructs, in source order.
    The primitives folded into the merged buffers are never rendered on
    their own, so no backend buffer ever exists for them. *)
Definition constructed : list Slot :=
  [GiraffeMaterial; SpotMaterial; EyeMaterial; EyeGeo;
   MergedGiraffeGeo; MergedSpotGeo].

Definition construct (id : nat) (a : App) : App :=
  fold_left (fun a s => emit (Created (id, s)) a) constructed a.

(** The camera re-targeting at the end of [redrawGiraffe] needs the
    bounding box of the vertex data and changes nothing modelled here. *)
Definition redrawGiraffe (a : App) : App :=
  let a := removeGiraffe a in
  let id := nextId a in
  let (g, rest) :=
    createGiraffe id
      (neckLength (signals a)) (legLength (signals a))
      (hornLength (signals a)) (headSize (signals a))
      (giraffeColor (signals a)) (spotColor (signals a))
      (entropy a) in
  let a := construct id (allocate rest a) in
  let a := set_giraffe (Some g) a in
  scene_add g a.

(** The two [effect]s of the constructor, as the framework runs them. *)
Definition effect_redraw (a : App) : App :=
  if isViewInitialized (signals a) then redrawGiraffe a else a.

Definition effect_autoRotate (a : App) : App :=
  if isViewInitialized (signals a)
  then set_controls_autoRotate (autoRotate (signals a)) a
  else a.

Definition initThreeJs (a : App) : App :=
  match canvasContainerRef a with
  | None => a
  | Some container =>
      let width := clientWidth container in
      let height := clientHeight container in
      let a := set_scene [] a in
      let a := set_camera
        (Some (updateProjectionMatrix
                 (mkCamera (divide width height) (Finite 0)))) a in
      let a := set_renderer (Some (setSize width height (mkRenderer 0 0 false))) a in
      let a := set_controls_autoRotate false a in
      let a := set_scene (scene a ++ [AmbientLight]) a in
      set_scene (scene a ++ [DirectionalLight]) a
  end.

Definition ngAfterViewInit (a : App) : App :=
  match canvasRef a, canvasContainerRef a with
  | true, Some _ =>
      let a := initThreeJs a in
      let a := set_isViewInitialized true a in
      set_animating true a
  | _, _ => a
  end.

Definition ngOnDestroy (a : App) : App :=
  let a := if animating a then set_animating false a else a in
  let a :=
    match renderer a with
    | Some r =>
        set_renderer
          (Some (mkRenderer (surfaceWidth r) (surfaceHeight r) true)) a
    | None => a
    end in
  match giraffe a with
  | Some _ => removeGiraffe a
  | None => a
  end.

(** The component right after its constructor: default signal values,
    no model, nothing rendered yet. *)
Definition newComponent (canvas : bool) (container : option Container)
    (rnd : RandomSource) : App :=
  mkApp (mkSignals "Gigi" 6 4 0.8 1 "#FFC300" "#8B4513" false false)
        canvas container None [] None false false None [] [] [] [] 0 rnd.

(** ** Resize *)

(** Host layout changes the size the container reports. *)
Definition hostLayout (w h : Z) (a : App) : App :=
  match canvasContainerRef a with
  | Some _ =>
      mkApp (signals a) (canvasRef a) (Some (mkContainer w h)) (renderer a)
            (scene a) (camera a) (controls_autoRotate a) (animating a)
            (giraffe a) (console a) (exportsStarted a) (downloads a)
            (backend a) (nextId a) (entropy a)
  | None => a
  end.

(** A handler either completes or throws. *)
Inductive Completion (A : Type) :=
| Normal (a : A)
| Throw (msg : string).
Arguments Normal {A} a.
Arguments Throw {A} msg.

(** Property access on a possibly undefined reference. *)
Definition deref {A} (o : option A) : Completion A :=
  match o with
  | Some x => Normal x
  | None => Throw "TypeError: Cannot read properties of undefined"
  end.

Definition andThen {A B} (c : Completion A) (k : A -> Completion B)
    : Completion B :=
  match c with
  | Normal a => k a
  | Throw msg => Throw msg
  end.

Definition isUndefined {A} (o : option A) : bool :=
  match o with Some _ => false | None => true end.

Definition onResize (a : App) : Completion App :=
  if isUndefined (canvasContainerRef a) || isUndefined (camera a)
     || isUndefined (renderer a)
  then Normal a
  else
    andThen (deref (canvasContainerRef a)) (fun container =>
    let width := clientWidth container in
    let height := clientHeight container in
    if (width =? 0)%Z || (height =? 0)%Z then Normal a
    else
      andThen (deref (camera a)) (fun cam =>
      let cam := mkCamera (divide width height) (projectionAspect cam) in
      let cam := updateProjectionMatrix cam in
      andThen (deref (renderer a)) (fun rend =>
      let rend := setSize width height rend in
      Normal (set_renderer (Some rend) (set_camera (Some cam) a))))).

(** ** Export *)

Inductive ExportResult :=
| ArrayBuffer (bytes : list Byte.byte)
| JsonDocument (stringified : string).  (* what [JSON.stringify] prints *)

Inductive ExportOutcome :=
| Done (result : ExportResult)
| Failed (error : string).

Record ExportOptions := mkOptions { binary : bool }.

(** [GLTFExporter] belongs to three.js, not to this repository: the
    component is read against an arbitrary serializer [parse], which
    answers through one of the two callbacks. *)
Definition Serializer := Group -> ExportOptions -> ExportOutcome.

Definition downloadModel (parse : Serializer) (a : App) : App :=
  match giraffe a with
  | None => console_error "No giraffe model to download." a
  | Some g =>
      (* We want to export as a .glb (binary) file *)
      let options := mkOptions true in
      match parse g options with
      | Done (ArrayBuffer result) =>
          saveArrayBuffer result "my-plush-giraffe.glb" (noteExport g a)
      | Done (JsonDocument output) =>
          (* Fallback for JSON format *)
          saveString output "my-plush-giraffe.gltf" (noteExport g a)
      | Failed error =>
          console_error ("An error happened during parsing " ++ error)
                        (noteExport g a)
      end
  end.

(** ** Runs of the component *)

Inductive Step : App -> App -> Prop :=
| step_name v a : Step a (onGiraffeNameChange v a)
| step_neck v a : Step a (onNeckLengthChange v a)
| step_leg v a : Step a (onLegLengthChange v a)
| step_horn v a : Step a (onHornLengthChange v a)
| step_head v a : Step a (onHeadSizeChange v a)
| step_color v a : Step a (onGiraffeColorChange v a)
| step_spot v a : Step a (onSpotColorChange v a)
| step_rotate v a : Step a (onAutoRotateChange v a)
| step_effect_redraw a : Step a (effect_redraw a)
| step_effect_rotate a : Step a (effect_autoRotate a)
| step_layout w h a : Step a (hostLayout w h a)
| step_resize a a' : onResize a = Normal a' -> Step a a'
| step_download parse a : Step a (downloadModel parse a)
| step_destroy a : Step a (ngOnDestroy a).

(** States a component can be in once its view has been set up. *)
Inductive Reachable : App -> Prop :=
| reach_init canvas container rnd :
    Reachable (ngAfterViewInit (newComponent canvas container rnd))
| reach_step a a' : Reachable a -> Step a a' -> Reachable a'.

(** ** Replaying the backend log *)

Definition dropResource (r : Resource) (l : list Resource) : list Resource :=
  filter (fun r' => negb (Resource_eqb r r')) l.

(** Disposable objects alive after the events of [t] (newest first). *)
Fixpoint liveAfter (t : list Event) : list Resource :=
  match t with
  | [] => []
  | Created r :: t' => r :: liveAfter t'
  | Disposed r :: t' => dropResource r (liveAfter t')
  | _ :: t' => liveAfter t'
  end.

(** Models that are children of the scene after the events of [t]. *)
Fixpoint inSceneAfter (t : list Event) : list nat :=
  match t with
  | [] => []
  | SceneAdded id :: t' => inSceneAfter t' ++ [id]
  | SceneRemoved id :: t' =>
      filter (fun id' => negb (Nat.eqb id' id)) (inSceneAfter t')
  | _ :: t' => inSceneAfter t'
  end.

(** [P] held after every event of the log, and at its start. *)
Fixpoint always (P : list Event -> Prop) (t : list Event) : Prop :=
  match t with
  | [] => P []
  | e :: t' => P (e :: t') /\ always P t'
  end.

(** All live objects belong to one and the same model. *)
Definition oneLiveModel (t : list Event) : Prop :=
  forall r1 r2, In r1 (liveAfter t) -> In r2 (liveAfter t) -> fst r1 = fst r2.

Definition oneSceneModel (t : list Event) : Prop :=
  (length (inSceneAfter t) <= 1)%nat.

Definition sceneModels (s : list SceneChild) : list nat :=
  flat_map (fun c => match c with Model g => [oid g] | _ => [] end) s.

Definition ownedBy (g : Group) : list Resource :=
  flat_map (fun m => [(oid g, geometryRef m); (oid g, materialRef m)])
           (children g).

(** ** Naming the parts of a model

    The groups are filled in a fixed push order, so a part is a slice of
    its group. *)

Definition slice {A} (from count : nat) (l : list A) : list A :=
  firstn count (skipn from l).

Definition bodyOf (g : Group) := slice 0 1 (structuralGroup g).
Definition legsOf (g : Group) := slice 1 4 (structuralGroup g).
Definition tailOf (g : Group) := slice 5 1 (structuralGroup g).
Definition neckOf (g : Group) := slice 6 1 (structuralGroup g).
Definition headOf (g : Group) := slice 7 1 (structuralGroup g).
Definition earsOf (g : Group) := slice 8 2 (structuralGroup g).

Definition tasselOf (g : Group) := slice 0 1 (patternGroup g).
Definition snoutOf (g : Group) := slice 1 1 (patternGroup g).
Definition hornsOf (g : Group) := slice 2 2 (patternGroup g).
Definition zSpotsOf (g : Group) := slice 4 6 (patternGroup g).
Definition xSpotsOf (g : Group) := slice 10 6 (patternGroup g).
Definition bodySpotsOf (g : Group) := zSpotsOf g ++ xSpotsOf g.
Definition neckSpotsOf (g : Group) := slice 16 4 (patternGroup g).

(** A primitive as it sits in the model: its shape and where its centre is
    in the model's frame. *)
Record Placed := mkPlaced { pshape : Shape; pcenter : Vector3 }.

Definition placedGeometry (b : BufferGeometry) : Placed :=
  mkPlaced (shape b) (centerOf b).

Definition vadd (a b : Vector3) : Vector3 :=
  mkVector3 (vx a + vx b) (vy a + vy b) (vz a + vz b).

Definition placedMesh (m : Mesh) : list Placed :=
  map (fun b => mkPlaced (shape b) (vadd (centerOf b) (position m)))
      (geometry m).

Definition eyesOf (g : Group) : list Placed :=
  flat_map placedMesh (eyeMeshes g).

(** Height in the world of a point of the model's frame. *)
Definition worldY (g : Group) (v : Vector3) : number := vy v + position_y g.

(** The foot of a leg: centre of its bottom cap, in the world. *)
Definition footHeight (g : Group) (leg : BufferGeometry) : number :=
  worldY g (vertexOf leg (bottomCap (shape leg))).

(** The model built for given parameters and random numbers. *)
Definition modelOf (id : nat) (n l h hs : number) (c sc : string)
    (rnd : RandomSource) : Group :=
  fst (createGiraffe id n l h hs c sc rnd).

(** ** Head scaling, stated *)

Definition topCap (s : Shape) : Vector3 :=
  match s with
  | CylinderGeometry _ _ h => mkVector3 0 (h / 2) 0
  | BoxGeometry _ h _ => mkVector3 0 (h / 2) 0
  | SphereGeometry r _ _ => mkVector3 0 r 0
  end.

(** The neck top: centre of the neck's top cap. *)
Definition neckCapOf (g : Group) : Vector3 :=
  match neckOf g with
  | [neck] => vertexOf neck (topCap (shape neck))
  | _ => origin
  end.

(** The head rests on the neck's top cap, its centre a little in front of
    the neck axis: the point of that cap right under the head's centre. *)
Definition neckTopOf (g : Group) : Vector3 :=
  match neckOf g, headOf g with
  | [neck], [head] =>
      mkVector3 0 (vy (vertexOf neck (topCap (shape neck)))) (vz (centerOf head))
  | _, _ => origin
  end.

(** [p2] is [p1] blown up by [k] about the anchors. *)
Definition scaledBy (k : number) (anchor1 anchor2 : Vector3)
    (p1 p2 : Placed) : Prop :=
  dimensions (pshape p2) = map (Rmult k) (dimensions (pshape p1)) /\
  vsub (pcenter p2) anchor2 = vscale k (vsub (pcenter p1) anchor1).

(** Head, snout, both horns, both ears, both eyes. *)
Definition headRelativeOf (g : Group) : list Placed :=
  map placedGeometry (headOf g ++ snoutOf g ++ hornsOf g ++ earsOf g)
  ++ eyesOf g.

(** The same without the horns. *)
Definition headSizedOf (g : Group) : list Placed :=
  map placedGeometry (headOf g ++ snoutOf g ++ earsOf g) ++ eyesOf g.

(** Body, legs, neck, tail shaft and tail tuft. *)
Definition trunkOf (g : Group) : list BufferGeometry :=
  bodyOf g ++ legsOf g ++ neckOf g ++ tailOf g ++ tasselOf g.

(** The scaling as claimed: every head-relative primitive blown up by [k]
    about the neck top, the rest of the animal unchanged. *)
Definition headScaling (k : number) (g1 g2 : Group) : Prop :=
  Forall2 (scaledBy k (neckCapOf g1) (neckCapOf g2))
          (headRelativeOf g1) (headRelativeOf g2) /\
  trunkOf g1 = trunkOf g2.

(** What does scale on a horn: its radii and the place of its base.  Its
    height is [len] before and after. *)
Definition hornScaledBy (k len : number) (anchor1 anchor2 : Vector3)
    (b1 b2 : BufferGeometry) : Prop :=
  match shape b1, shape b2 with
  | CylinderGeometry rt1 rb1 len1, CylinderGeometry rt2 rb2 len2 =>
      rt2 = k * rt1 /\ rb2 = k * rb1 /\ len1 = len /\ len2 = len /\
      vsub (vertexOf b2 (bottomCap (shape b2))) anchor2
      = vscale k (vsub (vertexOf b1 (bottomCap (shape b1))) anchor1)
  | _, _ => False
  end.

(** ** Spots, stated *)

Definition Reqb (a b : number) : bool :=
  if Req_dec_T a b then true else false.

(** The four upright faces of the body box (3 wide, 5 deep). *)
Inductive BodyFace := FaceFront | FaceBack | FaceRight | FaceLeft.

Definition onFace (f : BodyFace) (b : BufferGeometry) : bool :=
  match f with
  | FaceFront => Reqb (vz (centerOf b)) 2.5
  | FaceBack => Reqb (vz (centerOf b)) (-2.5)
  | FaceRight => Reqb (vx (centerOf b)) 1.5
  | FaceLeft => Reqb (vx (centerOf b)) (-1.5)
  end.

Definition spotsOnFace (f : BodyFace) (g : Group) : list BufferGeometry :=
  filter (onFace f) (bodySpotsOf g).

Definition within (lo hi x : number) : Prop := lo <= x <= hi.

(** The two catalogs of body spot positions and the neck spot sites. *)
Definition zCatalog : list Vector3 :=
  [ mkVector3 1 1 2.5; mkVector3 (-1.2) 0.5 2.5; mkVector3 0.5 (-1) 2.5;
    mkVector3 1 1 (-2.5); mkVector3 (-1.2) 0.5 (-2.5);
    mkVector3 0.5 (-1) (-2.5) ].

Definition xCatalog : list Vector3 :=
  [ mkVector3 1.5 1 1.8; mkVector3 1.5 (-0.5) 0; mkVector3 1.5 0.8 (-1.5);
    mkVector3 (-1.5) 1 1.8; mkVector3 (-1.5) (-0.5) 0;
    mkVector3 (-1.5) 0.8 (-1.5) ].

Definition neckSites : list SpotSite :=
  [ mkSite 0.2 (PI / 5); mkSite 0.45 (- PI / 3);
    mkSite 0.7 (PI / 1.5); mkSite 0.9 PI ].

(** Radius of the tapered neck at the fraction [p] of its length. *)
Definition neckRadiusAt (p : number) : number := 0.95 - p * (0.95 - 0.75).

(** A neck spot at [site]: turned by the site's angle about the vertical
    axis, then pushed out to the neck surface. *)
Definition neckPlacement (n : number) (site : SpotSite) : list Transform :=
  [ RotateY (site_angle site);
    Translate (neckRadiusAt (site_p site) * sin (site_angle site))
              (3 / 2 + site_p site * n)
              (1.5 + neckRadiusAt (site_p site) * cos (site_angle site)) ].

Definition placedAt (p : Vector3) : list Transform :=
  [ Translate (vx p) (vy p) (vz p) ].

(** ** Lifecycle invariant *)

Definition eventModel (e : Event) : nat :=
  match e with
  | Created r | Disposed r => fst r
  | SceneAdded id | SceneRemoved id => id
  end.

(** A release: the event frees something and brings nothing to life. *)
Definition isRelease (e : Event) : Prop :=
  match e with
  | Disposed _ | SceneRemoved _ => True
  | Created _ | SceneAdded _ => False
  end.

Definition activeModel (a : App) : list nat :=
  match giraffe a with
  | Some g => [oid g]
  | None => []
  end.

Definition activeResources (a : App) : list Resource :=
  match giraffe a with
  | Some g => ownedBy g
  | None => []
  end.

(** What holds between any two handler runs. *)
Record Inv (a : App) : Prop := mkInv {
  inv_live : always oneLiveModel (backend a);
  inv_scene : always oneSceneModel (backend a);
  inv_replay : inSceneAfter (backend a) = sceneModels (scene a);
  inv_active : sceneModels (scene a) = activeModel a;
  inv_owned : incl (liveAfter (backend a)) (activeResources a);
  inv_fresh : Forall (fun e => (eventModel e < nextId a)%nat) (backend a);
  inv_active_fresh : Forall (fun id => (id < nextId a)%nat) (activeModel a)
}.

(** The [dispose] calls of one [traverse], newest first. *)
Definition disposals (id : nat) (ms : list Mesh) : list Event :=
  flat_map (fun m => [Disposed (id, materialRef m); Disposed (id, geometryRef m)])
           (rev ms).

(** The constructor calls of one [createGiraffe], newest first. *)
Definition creations (id : nat) : list Event :=
  rev (map (fun s => Created (id, s)) constructed).

(** Every live object belongs to the model [id]. *)
Definition ownedOnlyBy (id : nat) (t : list Event) : Prop :=
  forall r, In r (liveAfter t) -> fst r = id.

(** The ParameterSet invariant of the specification. *)
Definition validParameters (s : Signals) : Prop :=
  0 < neckLength s /\ 0 < legLength s /\ 0 < hornLength s /\ 0 < headSize s.

(** The model [redrawGiraffe] builds from the state [a]. *)
Definition nextModel (a : App) : Group :=
  modelOf (nextId a)
          (neckLength (signals a)) (legLength (signals a))
          (hornLength (signals a)) (headSize (signals a))
          (giraffeColor (signals a)) (spotColor (signals a))
          (entropy a).

(** The component with its view set up on an 800 by 600 container. *)
Definition freshView : App :=
  ngAfterViewInit
    (newComponent true (Some (mkContainer 800 600)) (fun _ => 0)).


(** The component after a neck length of -1 was typed and the model redrawn. *)
Definition negativeNeck : App :=
  effect_redraw (onNeckLengthChange (-1) freshView).

(** ** More geometry, stated *)

(** Centres of the faces of an (untransformed) box; for the round shapes,
    the matching points of the surface. *)
Definition rightFace (s : Shape) : Vector3 :=
  match s with
  | BoxGeometry w _ _ => mkVector3 (w / 2) 0 0
  | CylinderGeometry rt _ _ => mkVector3 rt 0 0
  | SphereGeometry r _ _ => mkVector3 r 0 0
  end.

Definition leftFace (s : Shape) : Vector3 :=
  match s with
  | BoxGeometry w _ _ => mkVector3 (- (w / 2)) 0 0
  | CylinderGeometry rt _ _ => mkVector3 (- rt) 0 0
  | SphereGeometry r _ _ => mkVector3 (- r) 0 0
  end.

Definition frontFace (s : Shape) : Vector3 :=
  match s with
  | BoxGeometry _ _ d => mkVector3 0 0 (d / 2)
  | CylinderGeometry rt _ _ => mkVector3 0 0 rt
  | SphereGeometry r _ _ => mkVector3 0 0 r
  end.

(** Radius of a three.js cylinder at the fraction [p] of its height,
    counted from the bottom cap. *)
Definition taperAt (s : Shape) (p : number) : number :=
  match s with
  | CylinderGeometry rt rb _ => rb + p * (rt - rb)
  | _ => 0
  end.

(** Direction a vector is turned into by the rotations baked in a
    primitive (translations move points, not directions). *)
Definition turnBy (t : Transform) (v : Vector3) : Vector3 :=
  match t with
  | Translate _ _ _ => v
  | _ => applyTransform t v
  end.

Definition directionOf (g : BufferGeometry) (v : Vector3) : Vector3 :=
  fold_left (fun acc t => turnBy t acc) (baked g) v.

(** A neck spot sits on the neck [neck] at the site [site]: its centre is
    at the site's fraction of the neck's height, at the distance of the
    neck's radius there from the neck's axis, and its front (the z
    direction of the untransformed box) points away from the axis. *)
Definition sitsOnNeck (neck : BufferGeometry) (site : SpotSite)
    (spot : BufferGeometry) : Prop :=
  let c := centerOf spot in
  let axis := centerOf neck in
  let r := taperAt (shape neck) (site_p site) in
  let normal := directionOf spot (mkVector3 0 0 1) in
  match shape neck with
  | CylinderGeometry _ _ len =>
      vy c = vy (vertexOf neck (bottomCap (shape neck))) + site_p site * len
  | _ => False
  end /\
  (vx c - vx axis) * (vx c - vx axis) + (vz c - vz axis) * (vz c - vz axis)
  = r * r /\
  normal = mkVector3 (sin (site_angle site)) 0 (cos (site_angle site)) /\
  mkVector3 (vx c - vx axis) 0 (vz c - vz axis) = vscale r normal.

(** ** More on runs *)

(** Runs from a given state: any number of steps. *)
Inductive Run (a0 : App) : App -> Prop :=
| run_here : Run a0 a0
| run_step a a' : Run a0 a -> Step a a' -> Run a0 a'.

(** The camera, the projection matrix and the render surface agree, or
    the view has not been set up and nothing exists yet. *)
Definition viewConsistent (a : App) : Prop :=
  match camera a, renderer a with
  | Some cam, Some rend =>
      isViewInitialized (signals a) = true /\
      projectionAspect cam = aspect cam /\
      aspect cam = divide (surfaceWidth rend) (surfaceHeight rend)
  | None, None =>
      isViewInitialized (signals a) = false /\
      giraffe a = None /\ backend a = [] /\ scene a = [] /\ downloads a = []
  | _, _ => False
  end.

(** The active model is one [createGiraffe] built, with its six objects
    alive; without a model nothing is alive. *)
Definition fullyLive (a : App) : Prop :=
  match giraffe a with
  | Some g =>
      (exists id n l h hs c sc rnd, g = modelOf id n l h hs c sc rnd) /\
      liveAfter (backend a) = map (pair (oid g)) (rev constructed)
  | None => liveAfter (backend a) = []
  end.

(** ** The download link

    [save] in detail, on the part of the browser it touches: the children
    of [document.body], the registry of object URLs and the downloads the
    browser starts. *)
Module Dom.

Record Blob := mkBlob { blobParts : Payload; type : string }.

Record Anchor := mkAnchor {
  node : nat;                 (* identity of the element *)
  display : string;
  href : option nat;          (* an object URL *)
  download : string
}.

Record Document := mkDocument {
  body : list nat;                    (* children of document.body *)
  nextNode : nat;
  objectURLs : list (nat * Blob);     (* URLs not revoked yet *)
  nextURL : nat;
  started : list Download             (* downloads the browser started *)
}.

Definition createElement (d : Document) : Anchor * Document :=
  (mkAnchor (nextNode d) "" None "",
   mkDocument (body d) (S (nextNode d)) (objectURLs d) (nextURL d) (started d)).

Definition appendChild (n : nat) (d : Document) : Document :=
  mkDocument (body d ++ [n]) (nextNode d) (objectURLs d) (nextURL d)
             (started d).

Fixpoint removeFirst (n : nat) (l : list nat) : list nat :=
  match l with
  | [] => []
  | x :: l' => if Nat.eqb x n then l' else x :: removeFirst n l'
  end.

Definition removeChild (n : nat) (d : Document) : Document :=
  mkDocument (removeFirst n (body d)) (nextNode d) (objectURLs d) (nextURL d)
             (started d).

Definition createObjectURL (b : Blob) (d : Document) : nat * Document :=
  (nextURL d,
   mkDocument (body d) (nextNode d) (objectURLs d ++ [(nextURL d, b)])
              (S (nextURL d)) (started d)).

Definition revokeObjectURL (u : option nat) (d : Document) : Document :=
  match u with
  | Some url =>
      mkDocument (body d) (nextNode d)
                 (filter (fun e => negb (Nat.eqb (fst e) url)) (objectURLs d))
                 (nextURL d) (started d)
  | None => d
  end.

Fixpoint resolve (url : nat) (l : list (nat * Blob)) : option Blob :=
  match l with
  | [] => None
  | (u, b) :: l' => if Nat.eqb u url then Some b else resolve url l'
  end.

(** Clicking a link with a [download] attribute saves what its URL points
    to, if the URL still resolves. *)
Definition click (a : Anchor) (d : Document) : Document :=
  match href a with
  | Some url =>
      match resolve url (objectURLs d) with
      | Some b =>
          mkDocument (body d) (nextNode d) (objectURLs d) (nextURL d)
                     (started d
                      ++ [mkDownload (blobParts b) (type b) (download a)])
      | None => d
      end
  | None => d
  end.

Definition save (blob : Blob) (filename : string) (d : Document) : Document :=
  let (link, d) := createElement d in
  let link := mkAnchor (node link) "none" (href link) (download link) in
  let d := appendChild (node link) d in          (* Required for Firefox *)
  let (url, d) := createObjectURL blob d in
  let link := mkAnchor (node link) (display link) (Some url) (download link) in
  let link := mkAnchor (node link) (display link) (href link) filename in
  let d := click link d in
  let d := revokeObjectURL (href link) d in
  removeChild (node link) d.

Definition saveString (text filename : string) : Document -> Document :=
  save (mkBlob (Text text) "text/plain") filename.

Definition saveArrayBuffer (buffer : list Byte.byte) (filename : string)
    : Document -> Document :=
  save (mkBlob (Bytes buffer) "application/octet-stream") filename.

(** Identities handed out so far are below the counters. *)
Definition wellFormed (d : Document) : Prop :=
  Forall (fun n => (n < nextNode d)%nat) (body d) /\
  Forall (fun e => (fst e < nextURL d)%nat) (objectURLs d).

Definition emptyDocument : Document := mkDocument [] 0 [] 0 [].

End Dom.

(** Two positions a quarter turn of the hash's sine away from the origin,
    one along x and one along z. *)
Definition quarterTurnX : Vector3 := mkVector3 (PI / 2 / 12.9898 / 20.0) 0 0.
Definition quarterTurnZ : Vector3 := mkVector3 0 0 (PI / 2 / 78.233 / 20.0).




(** ** Helpers *)

Ltac build :=
  cbv beta iota zeta delta
    [modelOf fst snd createGiraffe bind ret forEachPush Math_random
     structuralGroup patternGroup geometriesOf meshWith eyeMeshes eyesOf
     placedMesh placedGeometry
     bodyOf legsOf tailOf neckOf headOf earsOf tasselOf snoutOf hornsOf
     zSpotsOf xSpotsOf bodySpotsOf neckSpotsOf slice
     headRelativeOf headSizedOf trunkOf neckTopOf neckCapOf topCap
     app List.length Nat.ltb Nat.leb find filter map flat_map firstn skipn
     children geometryRef materialRef geometry material position position_y
     oid withShadows newMesh position_set set_position_x cloneMesh Slot_eqb
     mergeGeometries clone translate rotateX rotateY newGeometry shape baked
     createTexturedMaterial site_p site_angle vx vy vz
     footHeight worldY vertexOf centerOf bottomCap applyBaked applyTransform
     fold_left origin dimensions pshape pcenter vadd vsub vscale
     zCatalog xCatalog neckSites neckPlacement placedAt neckRadiusAt].

Ltac vector :=
  repeat match goal with
         | |- _ :: _ = _ :: _ => f_equal
         | |- mkVector3 _ _ _ = mkVector3 _ _ _ => f_equal
         end;
  unfold number in *;
  try reflexivity; try lra; try (field; lra).

Ltac geo :=
  build;
  cbv beta iota zeta delta [rightFace leftFace frontFace directionOf turnBy
                            taperAt sitsOnNeck
                            fold_left applyTransform vx vy vz baked];
  unfold number in *.

(** ** Geometry theorems *)

(** C3. With the parameter set neckLength 6, legLength 4, hornLength 0.8,
    headSize 1, the root node is lifted by legLength + bodyHeight/2 =
    4 + 1.5 = 5.5, and the model has four leg cylinders of height 4 whose
    bottom caps, moved by that lift, are at world height 0. *)
Theorem default_model_stands_on_ground (id : nat) (c sc : string)
    (rnd : RandomSource) :
  let g := modelOf id 6 4 0.8 1 c sc rnd in
  position_y g = 4 + 3 / 2 /\
  position_y g = 5.5 /\
  map shape (legsOf g) = repeat (CylinderGeometry 0.4 0.3 4) 4 /\
  Forall (fun leg => footHeight g leg = 0) (legsOf g).
Proof.
  intro g; subst g.
  split; [reflexivity|].
  split; [build; lra|].
  split; [reflexivity|].
  build. repeat constructor; build; lra.
Qed.

(** C4. Whatever the parameters and the random numbers, the structural
    group has 10 primitives and the pattern group has 20; two runs on the
    same parameters give the same structural group and pattern groups that
    agree in every baked placement and in the tuft, snout and horns, so
    that only the spot shapes can differ. *)
Theorem primitive_counts_constant :
  (forall id n l h hs c sc rnd,
      length (structuralGroup (modelOf id n l h hs c sc rnd)) = 10%nat /\
      length (patternGroup (modelOf id n l h hs c sc rnd)) = 20%nat) /\
  (forall id1 id2 n l h hs c sc rnd1 rnd2,
      let g1 := modelOf id1 n l h hs c sc rnd1 in
      let g2 := modelOf id2 n l h hs c sc rnd2 in
      structuralGroup g1 = structuralGroup g2 /\
      map baked (patternGroup g1) = map baked (patternGroup g2) /\
      slice 0 4 (patternGroup g1) = slice 0 4 (patternGroup g2)).
Proof.
  split.
  - intros; split; reflexivity.
  - intros; repeat split; reflexivity.
Qed.

(** C10. For fixed numeric parameters and colours, the structural group
    (body, legs, tail shaft, neck, head, ears), the two eye meshes and the
    lift of the root do not depend on the random numbers drawn nor on the
    identity of the model object; in the pattern group the placements and
    the tuft, snout and horns do not depend on them either. *)
Theorem structural_group_deterministic
    (id1 id2 : nat) (n l h hs : number) (c sc : string)
    (rnd1 rnd2 : RandomSource) :
  let g1 := modelOf id1 n l h hs c sc rnd1 in
  let g2 := modelOf id2 n l h hs c sc rnd2 in
  structuralGroup g1 = structuralGroup g2 /\
  eyeMeshes g1 = eyeMeshes g2 /\
  length (eyeMeshes g1) = 2%nat /\
  meshWith MergedGiraffeGeo g1 = meshWith MergedGiraffeGeo g2 /\
  position_y g1 = position_y g2 /\
  map baked (patternGroup g1) = map baked (patternGroup g2) /\
  tasselOf g1 ++ snoutOf g1 ++ hornsOf g1
  = tasselOf g2 ++ snoutOf g2 ++ hornsOf g2.
Proof.
  intros g1 g2; subst g1 g2.
  repeat split; reflexivity.
Qed.

(** C1, as stated, fails, on two counts.  From headSize 1 to headSize 2
    not every head-relative primitive is scaled by 2 about the neck top:
    the horns keep their height 0.8 (it is hornLength), and the head's
    centre stays 0.5 in front of the centre of the neck's top cap, the
    same at both sizes. *)
Lemma head_scaling_fails_on_horns :
  let g1 := modelOf 0 6 4 0.8 1 "#FFC300" "#8B4513" (fun _ => 0) in
  let g2 := modelOf 1 6 4 0.8 2 "#FFC300" "#8B4513" (fun _ => 0) in
  ~ headScaling (2 / 1) g1 g2 /\
  Forall (fun horn => exists rt rb, shape horn = CylinderGeometry rt rb 0.8)
         (hornsOf g1 ++ hornsOf g2) /\
  map (fun b => vz (centerOf b) - vz (neckCapOf g1)) (headOf g1) = [0.5] /\
  map (fun b => vz (centerOf b) - vz (neckCapOf g2)) (headOf g2) = [0.5].
Proof.
  cbv zeta. split; [|split; [|split]].
  - unfold headScaling. build. intros [H _].
    inversion H as [|? ? ? ? _ H1]; subst; clear H.
    inversion H1 as [|? ? ? ? _ H2]; subst; clear H1.
    inversion H2 as [|? ? ? ? [Hdim _] _]; subst; clear H2.
    injection Hdim as _ _ Hlen. lra.
  - build. repeat constructor; eexists; eexists; reflexivity.
  - build. vector.
  - build. vector.
Qed.

(** C1, amended.  For 0 < h1 < h2 and all other parameters fixed, take
    offsets from the point 0.5 in front of the centre of the neck's top
    cap, over which the head is centred at every head size.  Then the
    head, the snout, both ears and both eyes have every dimension and
    every offset scaled by exactly h2/h1; each horn has its radii and the
    offset of its base scaled by h2/h1, while its height is hornLength in
    both models; body, legs, neck, tail shaft and tuft are identical. *)
Theorem head_scaling_amended
    (id1 id2 : nat) (n l h : number) (c sc : string)
    (rnd1 rnd2 : RandomSource) (h1 h2 : number) :
  0 < h1 -> h1 < h2 ->
  let g1 := modelOf id1 n l h h1 c sc rnd1 in
  let g2 := modelOf id2 n l h h2 c sc rnd2 in
  let k := h2 / h1 in
  neckTopOf g1 = vadd (neckCapOf g1) (mkVector3 0 0 0.5) /\
  neckTopOf g2 = vadd (neckCapOf g2) (mkVector3 0 0 0.5) /\
  neckCapOf g2 = neckCapOf g1 /\
  Forall2 (scaledBy k (neckTopOf g1) (neckTopOf g2))
          (headSizedOf g1) (headSizedOf g2) /\
  length (headSizedOf g1) = 6%nat /\
  Forall2 (hornScaledBy k h (neckTopOf g1) (neckTopOf g2))
          (hornsOf g1) (hornsOf g2) /\
  length (hornsOf g1) = 2%nat /\
  trunkOf g1 = trunkOf g2 /\
  length (trunkOf g1) = 8%nat.
Proof.
  intros Hpos Hlt g1 g2 k; subst g1 g2 k.
  assert (Hne : h1 <> 0) by lra.
  split; [build; vector|].
  split; [build; vector|].
  split; [reflexivity|].
  split; [|split; [reflexivity|split; [|split; [reflexivity|split; reflexivity]]]].
  - build. repeat constructor; build; vector.
  - build. repeat constructor; unfold hornScaledBy; build;
      repeat split; vector.
Qed.

Lemma head_scaling_amended_witness :
  let g1 := modelOf 0 6 4 0.8 1 "#FFC300" "#8B4513" (fun _ => 0) in
  let g2 := modelOf 1 6 4 0.8 2 "#FFC300" "#8B4513" (fun _ => 0) in
  Forall2 (hornScaledBy (2 / 1) 0.8 (neckTopOf g1) (neckTopOf g2))
          (hornsOf g1) (hornsOf g2) /\
  Forall2 (scaledBy (2 / 1) (neckTopOf g1) (neckTopOf g2))
          (headSizedOf g1) (headSizedOf g2).
Proof.
  assert (H1 : 0 < 1) by lra. assert (H2 : 1 < 2) by lra.
  pose proof (head_scaling_amended 0 1 6 4 0.8 "#FFC300" "#8B4513"
                (fun _ => 0) (fun _ => 0) 1 2 H1 H2) as H.
  cbv zeta in H. split; [apply H|apply H].
Defined.

(** ** Spots *)

Lemma Reqb_true (a b : number) : a = b -> Reqb a b = true.
Proof. intro H. unfold Reqb. destruct (Req_dec_T a b); [reflexivity|contradiction]. Qed.

Lemma Reqb_false (a b : number) : a <> b -> Reqb a b = false.
Proof. intro H. unfold Reqb. destruct (Req_dec_T a b); [contradiction|reflexivity]. Qed.

Ltac decide_faces :=
  repeat match goal with
         | |- context [Reqb ?a ?b] =>
             first [ rewrite (Reqb_true a b) by (unfold number; lra)
                   | rewrite (Reqb_false a b) by (unfold number; lra) ]
         end.

(** Every upright face of the body carries three spots. *)
Lemma three_spots_per_face (id : nat) (n l h hs : number) (c sc : string)
    (rnd : RandomSource) (f : BodyFace) :
  length (spotsOnFace f (modelOf id n l h hs c sc rnd)) = 3%nat.
Proof.
  unfold spotsOnFace. build.
  destruct f; unfold onFace; build; decide_faces; reflexivity.
Qed.

Lemma body_spot_range (r : number) :
  0 <= r < 1 -> within 0.5 0.9 (0.5 + r * 0.4).
Proof. unfold within. lra. Qed.

Lemma neck_spot_range (r : number) :
  0 <= r < 1 -> within 0.4 0.7 (0.4 + r * 0.3).
Proof. unfold within. lra. Qed.

(** C5, as stated, fails: the front face of the body does not carry six
    spots.  It carries three, as does each of the other upright faces. *)
Lemma six_spots_per_face_fails :
  ~ (forall f : BodyFace,
        length (spotsOnFace f
                  (modelOf 0 6 4 0.8 1 "#FFC300" "#8B4513" (fun _ => 0)))
        = 6%nat).
Proof.
  intro H. specialize (H FaceFront).
  rewrite three_spots_per_face in H. discriminate H.
Qed.

(** C5, amended.  With [Math.random] in [[0,1)]: the pattern group holds
    twelve body spots at fixed positions, six from the catalog of the
    front and back faces and six from the catalog of the right and left
    faces, three on each of the four faces.  Each is a box 0.1 thick whose
    two in-face dimensions (width and height on front and back, height and
    depth on the sides) are [0.5 + r * 0.4] for two random numbers of
    its own, hence in [[0.5, 0.9]].  It also holds exactly four neck
    spots, at p = 0.2, 0.45, 0.7, 0.9: each is turned by its angle about
    the vertical axis and moved to height 1.5 + p * neckLength at the
    distance [0.95 - p * (0.95 - 0.75)] from the neck axis in the direction
    of that angle, and is a box 0.1 thick with width and height
    [0.4 + r * 0.3] for two random numbers of its own, hence in
    [[0.4, 0.7]]. *)
Theorem spots_amended (id : nat) (n l h hs : number) (c sc : string)
    (rnd : RandomSource) :
  unitInterval rnd ->
  let g := modelOf id n l h hs c sc rnd in
  map baked (zSpotsOf g) = map placedAt zCatalog /\
  map baked (xSpotsOf g) = map placedAt xCatalog /\
  (forall f, length (spotsOnFace f g) = 3%nat) /\
  map shape (zSpotsOf g)
  = map (fun i => BoxGeometry (0.5 + rnd (2 * i)%nat * 0.4)
                              (0.5 + rnd (2 * i + 1)%nat * 0.4) 0.1)
        (seq 0 6) /\
  map shape (xSpotsOf g)
  = map (fun i => BoxGeometry 0.1 (0.5 + rnd (12 + 2 * i)%nat * 0.4)
                              (0.5 + rnd (12 + 2 * i + 1)%nat * 0.4))
        (seq 0 6) /\
  Forall (fun b => exists w t, shape b = BoxGeometry w t 0.1 /\
                               within 0.5 0.9 w /\ within 0.5 0.9 t)
         (zSpotsOf g) /\
  Forall (fun b => exists t d, shape b = BoxGeometry 0.1 t d /\
                               within 0.5 0.9 t /\ within 0.5 0.9 d)
         (xSpotsOf g) /\
  map baked (neckSpotsOf g) = map (neckPlacement n) neckSites /\
  map site_p neckSites = [0.2; 0.45; 0.7; 0.9] /\
  map shape (neckSpotsOf g)
  = map (fun i => BoxGeometry (0.4 + rnd (24 + 2 * i)%nat * 0.3)
                              (0.4 + rnd (24 + 2 * i + 1)%nat * 0.3) 0.1)
        (seq 0 4) /\
  Forall (fun b => exists w t, shape b = BoxGeometry w t 0.1 /\
                               within 0.4 0.7 w /\ within 0.4 0.7 t)
         (neckSpotsOf g) /\
  length (patternGroup g) = (4 + 12 + 4)%nat.
Proof.
  intros Hrnd g; subst g.
  split; [reflexivity|].
  split; [reflexivity|].
  split; [intro f; apply three_spots_per_face|].
  split; [reflexivity|].
  split; [reflexivity|].
  split; [build; repeat constructor; eexists; eexists;
          (split; [reflexivity | split; apply body_spot_range, Hrnd])|].
  split; [build; repeat constructor; eexists; eexists;
          (split; [reflexivity | split; apply body_spot_range, Hrnd])|].
  split; [reflexivity|].
  split; [reflexivity|].
  split; [reflexivity|].
  split; [build; repeat constructor; eexists; eexists;
          (split; [reflexivity | split; apply neck_spot_range, Hrnd])|].
  reflexivity.
Qed.

Lemma spots_amended_witness :
  unitInterval (fun _ => 0) /\
  length (spotsOnFace FaceLeft
            (modelOf 0 6 4 0.8 1 "#FFC300" "#8B4513" (fun _ => 0))) = 3%nat.
Proof.
  assert (H0 : unitInterval (fun _ => 0)) by (intro i; lra).
  split; [exact H0|].
  apply (spots_amended 0 6 4 0.8 1 "#FFC300" "#8B4513" (fun _ => 0) H0).
Defined.

(** ** The surface shader *)

Lemma random_unit (st : vec2) : 0 <= random st < 1.
Proof.
  unfold random, fract.
  destruct (base_fp (sin (dot2 st (mkVec2 12.9898 78.233)) * 43758.5453123))
    as [Hge Hlt].
  split; [apply Rge_le, Hge | exact Hlt].
Qed.

Lemma noise_unit (p : Vector3) : 0 <= noise p < 1.
Proof.
  unfold noise.
  pose proof (random_unit (mkVec2 (vx p * 20.0) (vy p * 20.0))) as Hxy.
  pose proof (random_unit (mkVec2 (vy p * 20.0) (vz p * 20.0))) as Hyz.
  lra.
Qed.

Lemma frac_part_between (x : number) (z : Z) :
  IZR z <= x < IZR z + 1 -> frac_part x = x - IZR z.
Proof.
  intros [Hlo Hhi]. unfold frac_part, Int_part.
  assert (Hup : (z + 1)%Z = up x).
  { apply tech_up; rewrite plus_IZR; simpl; lra. }
  rewrite <- Hup. rewrite minus_IZR, plus_IZR. simpl. lra.
Qed.

Lemma random_at_origin : random (mkVec2 0 0) = 0.
Proof.
  unfold random, fract, dot2. simpl.
  replace (0 * 12.9898 + 0 * 78.233) with 0 by lra.
  rewrite sin_0. replace (0 * 43758.5453123) with 0 by lra.
  rewrite (frac_part_between 0 0); simpl; lra.
Qed.

Lemma random_at_quarter_turn (st : vec2) :
  st_x st * 12.9898 + st_y st * 78.233 = PI / 2 ->
  random st = 0.5453123.
Proof.
  intro H. unfold random, fract, dot2. simpl. rewrite H, sin_PI2.
  rewrite (frac_part_between _ 43758); simpl; lra.
Qed.

(** C6. The hash of the fragment prolog is
    fract(sin(x * 12.9898 + y * 78.233) * 43758.5453123); the noise at a
    world position is the mean of that hash on the xy projection and on
    the yz projection of the position, each scaled by 20, and lies in
    [[0, 1]]; the brightness factor is 0.9 + noise * 0.15, which lies in
    [[0.9, 1.05]] for every noise value in [[0, 1]]; the colour leaving
    the patched stage is the base colour times that factor, channel by
    channel.  The factor does change with the position, through either
    projection: it is 0.9 at the origin and 0.9 + 0.5453123/2 * 0.15 a
    quarter turn of the sine away along x or along z. *)
Theorem texture_factor_range (baseColorValue : string) (diffuseColor : RGB)
    (vWorldPosition : Vector3) (n : number) :
  0 <= n <= 1 ->
  let hash := fun x y =>
    frac_part (sin (x * 12.9898 + y * 78.233) * 43758.5453123) in
  let x := vx vWorldPosition in
  let y := vy vWorldPosition in
  let z := vz vWorldPosition in
  let mean := (hash (x * 20.0) (y * 20.0) + hash (y * 20.0) (z * 20.0)) / 2 in
  (forall st, random st = hash (st_x st) (st_y st)) /\
  noise vWorldPosition = mean /\
  0 <= mean <= 1 /\
  0.9 <= 0.9 + n * 0.15 <= 1.05 /\
  factorOfNoise n = 0.9 + n * 0.15 /\
  0.9 <= 0.9 + mean * 0.15 <= 1.05 /\
  colorFragment (createTexturedMaterial baseColorValue) diffuseColor
                vWorldPosition
  = mkRGB (red diffuseColor * (0.9 + mean * 0.15))
          (green diffuseColor * (0.9 + mean * 0.15))
          (blue diffuseColor * (0.9 + mean * 0.15)) /\
  (textureFactor origin = 0.9 /\
   textureFactor quarterTurnX = 0.9 + 0.5453123 / 2 * 0.15 /\
   textureFactor quarterTurnZ = 0.9 + 0.5453123 / 2 * 0.15 /\
   noise (mkVector3 (PI / 2 / 12.9898 / 20.0) 0 (PI / 2 / 78.233 / 20.0))
   = 0.5453123).
Proof.
  intros Hn hash x y z mean.
  assert (Hr : forall st, random st = hash (st_x st) (st_y st)).
  { intro st. reflexivity. }
  assert (Hm : noise vWorldPosition = mean).
  { unfold noise. rewrite !Hr. simpl. subst mean x y z. lra. }
  pose proof (noise_unit vWorldPosition) as Hu. rewrite Hm in Hu.
  assert (Hq : forall a b, a * 12.9898 + b * 78.233 = PI / 2 ->
                           random (mkVec2 a b) = 0.5453123).
  { intros a b H. apply random_at_quarter_turn. exact H. }
  assert (H0 : forall a b, a = 0 -> b = 0 -> random (mkVec2 a b) = 0).
  { intros a b -> ->. apply random_at_origin. }
  split; [exact Hr|]. split; [exact Hm|]. split; [lra|].
  split; [lra|]. split; [reflexivity|]. split; [lra|].
  split.
  - unfold colorFragment, createTexturedMaterial, scaleRGB, textureFactor,
      factorOfNoise. rewrite Hm. reflexivity.
  - unfold textureFactor, factorOfNoise, noise, origin, quarterTurnX,
      quarterTurnZ. simpl vx; simpl vy; simpl vz.
    repeat split.
    + rewrite !H0 by lra. lra.
    + rewrite (Hq (PI / 2 / 12.9898 / 20.0 * 20.0) (0 * 20.0)) by (field; lra).
      rewrite H0 by lra. lra.
    + rewrite (Hq (0 * 20.0) (PI / 2 / 78.233 / 20.0 * 20.0)) by (field; lra).
      rewrite H0 by lra. lra.
    + rewrite (Hq (PI / 2 / 12.9898 / 20.0 * 20.0) (0 * 20.0)) by (field; lra).
      rewrite (Hq (0 * 20.0) (PI / 2 / 78.233 / 20.0 * 20.0)) by (field; lra).
      lra.
Qed.

Lemma texture_factor_range_witness :
  0 <= 1 <= 1 /\ 0.9 <= 0.9 + 1 * 0.15 <= 1.05.
Proof.
  assert (H1 : 0 <= 1 <= 1) by lra.
  split; [exact H1|].
  apply (texture_factor_range "#FFC300" (mkRGB 1 1 1) origin 1 H1).
Defined.

(** ** Lifecycle lemmas *)

Lemma Slot_eqb_eq (s1 s2 : Slot) : Slot_eqb s1 s2 = true <-> s1 = s2.
Proof. destruct s1, s2; simpl; split; intro H; try reflexivity; discriminate H. Qed.

Lemma Resource_eqb_eq (r1 r2 : Resource) : Resource_eqb r1 r2 = true <-> r1 = r2.
Proof.
  destruct r1 as [i1 s1], r2 as [i2 s2]; unfold Resource_eqb; simpl.
  rewrite andb_true_iff, Nat.eqb_eq, Slot_eqb_eq.
  split; [intros [-> ->]; reflexivity | intro H; injection H; auto].
Qed.

Lemma In_dropResource (r x : Resource) (l : list Resource) :
  In r (dropResource x l) <-> In r l /\ r <> x.
Proof.
  unfold dropResource. rewrite filter_In, negb_true_iff.
  split; intros [Hin Hne]; split; trivial.
  - intros ->. rewrite (proj2 (Resource_eqb_eq x x) eq_refl) in Hne. discriminate.
  - destruct (Resource_eqb x r) eqn:E; [|reflexivity].
    apply Resource_eqb_eq in E. congruence.
Qed.

Lemma live_shrinks (t t' : list Event) :
  incl (liveAfter t') (liveAfter t) -> oneLiveModel t -> oneLiveModel t'.
Proof. intros Hsub H r1 r2 H1 H2. apply H; apply Hsub; assumption. Qed.

Lemma oneLive_disposed (r : Resource) (t : list Event) :
  oneLiveModel t -> oneLiveModel (Disposed r :: t).
Proof.
  apply live_shrinks. simpl. intros x Hx.
  apply In_dropResource in Hx. tauto.
Qed.

Lemma length_filter_le {A} (f : A -> bool) (l : list A) :
  (length (filter f l) <= length l)%nat.
Proof. induction l as [|x l IH]; simpl; [lia|]. destruct (f x); simpl; lia. Qed.

Lemma oneScene_removed (id : nat) (t : list Event) :
  oneSceneModel t -> oneSceneModel (SceneRemoved id :: t).
Proof.
  unfold oneSceneModel. simpl. intro H.
  pose proof (length_filter_le (fun id' => negb (Nat.eqb id' id)) (inSceneAfter t)).
  lia.
Qed.

(** The backend log only grows, and a release keeps both properties. *)
Lemma always_release (e : Event) (t : list Event) :
  isRelease e ->
  always oneLiveModel t /\ always oneSceneModel t ->
  always oneLiveModel (e :: t) /\ always oneSceneModel (e :: t).
Proof.
  intros He [Hl Hs].
  assert (Hl0 : oneLiveModel t) by (destruct t; simpl in Hl; tauto).
  assert (Hs0 : oneSceneModel t) by (destruct t; simpl in Hs; tauto).
  destruct e as [r|r|id|id]; simpl in He; try contradiction.
  - split; simpl; split; trivial. apply oneLive_disposed, Hl0.
  - split; simpl; split; trivial. apply oneScene_removed, Hs0.
Qed.

Lemma always_now (P : list Event -> Prop) (t : list Event) :
  always P t -> P t.
Proof. destruct t; simpl; tauto. Qed.

Lemma always_app (P : list Event -> Prop) (new old : list Event) :
  always P (new ++ old) -> always P old.
Proof. induction new as [|e new IH]; simpl; [trivial|]. intros [_ H]. auto. Qed.

(** *** What each statement does to the modelled fields *)

Lemma disposeAll_backend (id : nat) (ms : list Mesh) (a : App) :
  backend (fold_left (disposeMesh id) ms a) = disposals id ms ++ backend a.
Proof.
  unfold disposals. revert a.
  induction ms as [|m ms IH]; intro a; simpl; [reflexivity|].
  rewrite IH. rewrite flat_map_app. simpl. rewrite <- app_assoc. reflexivity.
Qed.

Lemma disposeAll_frame (id : nat) (ms : list Mesh) (a : App) :
  let a' := fold_left (disposeMesh id) ms a in
  signals a' = signals a /\ scene a' = scene a /\ giraffe a' = giraffe a /\
  nextId a' = nextId a /\ entropy a' = entropy a /\
  console a' = console a /\ downloads a' = downloads a /\
  exportsStarted a' = exportsStarted a /\
  camera a' = camera a /\ renderer a' = renderer a.
Proof.
  revert a. induction ms as [|m ms IH]; intro a; simpl.
  - repeat split.
  - specialize (IH (disposeMesh id a m)). simpl in IH. exact IH.
Qed.

Lemma disposals_release (id : nat) (ms : list Mesh) :
  Forall isRelease (disposals id ms).
Proof.
  unfold disposals. apply Forall_flat_map, Forall_forall.
  intros m _. repeat constructor.
Qed.

Lemma disposals_model (id : nat) (ms : list Mesh) :
  Forall (fun e => eventModel e = id) (disposals id ms).
Proof.
  unfold disposals. apply Forall_flat_map, Forall_forall.
  intros m _. repeat constructor.
Qed.

Lemma always_releases (new old : list Event) :
  Forall isRelease new ->
  always oneLiveModel old /\ always oneSceneModel old ->
  always oneLiveModel (new ++ old) /\ always oneSceneModel (new ++ old).
Proof.
  induction 1 as [|e new He _ IH]; intro H; simpl app; [exact H|].
  apply always_release; auto.
Qed.

Lemma live_after_releases (new old : list Event) :
  Forall isRelease new -> incl (liveAfter (new ++ old)) (liveAfter old).
Proof.
  induction 1 as [|e new He _ IH]; simpl app; [apply incl_refl|].
  destruct e as [r|r|id|id]; simpl in He; try contradiction; simpl.
  - intros x Hx. apply In_dropResource in Hx. apply IH; tauto.
  - exact IH.
Qed.

Lemma scene_after_disposals (id : nat) (ms : list Mesh) (old : list Event) :
  inSceneAfter (disposals id ms ++ old) = inSceneAfter old.
Proof.
  unfold disposals. induction (rev ms) as [|m l IH]; simpl; [reflexivity|exact IH].
Qed.

Lemma live_after_disposals (id : nat) (ms : list Mesh) (old : list Event)
    (r : Resource) :
  In r (liveAfter (disposals id ms ++ old)) ->
  In r (liveAfter old) /\
  ~ In r (flat_map (fun m => [(id, geometryRef m); (id, materialRef m)]) ms).
Proof.
  unfold disposals.
  assert (G : forall l,
    In r (liveAfter (flat_map (fun m => [Disposed (id, materialRef m);
                                        Disposed (id, geometryRef m)]) l ++ old)) ->
    In r (liveAfter old) /\
    ~ In r (flat_map (fun m => [(id, geometryRef m); (id, materialRef m)]) l)).
  { induction l as [|m l IH]; simpl; [tauto|].
    intro H. apply In_dropResource in H. destruct H as [H Hm].
    apply In_dropResource in H. destruct H as [H Hg].
    destruct (IH H) as [Hold Hnot]. split; [exact Hold|].
    intros [E|[E|E]]; [congruence|congruence|contradiction]. }
  intro H. destruct (G _ H) as [Hold Hnot]. split; [exact Hold|].
  intro Hin. apply Hnot. rewrite in_flat_map in *.
  destruct Hin as [m [Hm Hr]]. exists m. split; [apply in_rev in Hm; exact Hm|exact Hr].
Qed.

Lemma nil_of_no_member {A} (l : list A) : (forall x, ~ In x l) -> l = [].
Proof. destruct l as [|x l]; [reflexivity|]. intro H. destruct (H x). left; reflexivity. Qed.

Lemma sceneModels_app (s1 s2 : list SceneChild) :
  sceneModels (s1 ++ s2) = sceneModels s1 ++ sceneModels s2.
Proof. unfold sceneModels. apply flat_map_app. Qed.

Lemma sceneModels_filter (id : nat) (s : list SceneChild) :
  sceneModels (filter (fun c => negb (isObject id c)) s)
  = filter (fun id' => negb (Nat.eqb id' id)) (sceneModels s).
Proof.
  induction s as [|c s IH]; simpl; [reflexivity|].
  destruct c as [| |g]; simpl; try exact IH.
  destruct (Nat.eqb (oid g) id); simpl; [exact IH|]. rewrite IH. reflexivity.
Qed.

Lemma existsb_isObject (id : nat) (s : list SceneChild) :
  existsb (isObject id) s = false ->
  filter (fun id' => negb (Nat.eqb id' id)) (sceneModels s) = sceneModels s.
Proof.
  induction s as [|c s IH]; simpl; [reflexivity|].
  destruct c as [| |g]; simpl; try exact IH.
  destruct (Nat.eqb (oid g) id); simpl; [discriminate|].
  intro H. rewrite (IH H). reflexivity.
Qed.

Lemma Inv_frame (a b : App) :
  backend b = backend a -> scene b = scene a -> giraffe b = giraffe a ->
  nextId b = nextId a -> Inv a -> Inv b.
Proof.
  intros Hb Hs Hg Hn [H1 H2 H3 H4 H5 H6 H7].
  constructor; unfold activeModel, activeResources in *;
    rewrite ?Hb, ?Hs, ?Hg, ?Hn; assumption.
Qed.

(** [scene.remove] appends at most a release and filters the children. *)
Lemma scene_remove_spec (g : Group) (a : App) :
  inSceneAfter (backend a) = sceneModels (scene a) ->
  let a' := scene_remove g a in
  (exists ev, backend a' = ev ++ backend a /\ Forall isRelease ev /\
              Forall (fun e => eventModel e = oid g) ev) /\
  inSceneAfter (backend a') = sceneModels (scene a') /\
  sceneModels (scene a')
  = filter (fun id' => negb (Nat.eqb id' (oid g))) (sceneModels (scene a)) /\
  giraffe a' = giraffe a /\ nextId a' = nextId a /\
  signals a' = signals a /\ entropy a' = entropy a.
Proof.
  intros Hrep. unfold scene_remove.
  destruct (existsb (isObject (oid g)) (scene a)) eqn:E; simpl.
  - split; [exists [SceneRemoved (oid g)]; repeat constructor|].
    rewrite sceneModels_filter, Hrep. repeat split.
  - split; [exists []; repeat constructor|].
    rewrite (existsb_isObject _ _ E). repeat split; assumption.
Qed.

Lemma filter_self_out (id : nat) :
  filter (fun id' => negb (Nat.eqb id' id)) [id] = [].
Proof. simpl. rewrite Nat.eqb_refl. reflexivity. Qed.

(** [removeGiraffe] only releases, and leaves no model behind: nothing of
    the old model is live, the scene holds no model, the field is null. *)
Lemma removeGiraffe_spec (a : App) :
  Inv a ->
  let mid := removeGiraffe a in
  (exists released,
      backend mid = released ++ backend a /\ Forall isRelease released /\
      Forall (fun e => (eventModel e < nextId a)%nat) released) /\
  liveAfter (backend mid) = [] /\
  inSceneAfter (backend mid) = [] /\
  sceneModels (scene mid) = [] /\
  giraffe mid = None /\
  nextId mid = nextId a /\ signals mid = signals a /\ entropy mid = entropy a.
Proof.
  intros [Hl Hs Hrep Hact Hown Hfr Hafr].
  unfold removeGiraffe, activeModel, activeResources in *.
  destruct (giraffe a) as [g|] eqn:Hg.
  - destruct (scene_remove_spec g a Hrep)
      as [[ev [Hev [Hrel Hmod]]] [Hrep1 [Hsc1 [Hg1 [Hn1 [Hsig1 Hent1]]]]]].
    set (a1 := scene_remove g a) in *.
    destruct (disposeAll_frame (oid g) (children g) a1)
      as [Hsig2 [Hsc2 [Hg2 [Hn2 [Hent2 _]]]]].
    pose proof (disposeAll_backend (oid g) (children g) a1) as Hb2.
    set (a2 := fold_left (disposeMesh (oid g)) (children g) a1) in *.
    assert (Hid : (oid g < nextId a)%nat) by (inversion Hafr; assumption).
    rewrite Hact, filter_self_out in Hsc1.
    simpl. split; [|split; [|split; [|split; [|split; [|split; [|split]]]]]].
    + exists (disposals (oid g) (children g) ++ ev).
      rewrite Hb2, Hev, app_assoc. split; [reflexivity|]. split.
      * apply Forall_app; split; [apply disposals_release|exact Hrel].
      * apply Forall_app; split.
        -- eapply Forall_impl; [|apply disposals_model].
           simpl. intros e He. rewrite He. exact Hid.
        -- eapply Forall_impl; [|exact Hmod].
           simpl. intros e He. rewrite He. exact Hid.
    + apply nil_of_no_member. intros r Hr. rewrite Hb2 in Hr.
      apply live_after_disposals in Hr. destruct Hr as [Hr Hnot].
      apply Hnot. rewrite Hev in Hr.
      apply (live_after_releases ev (backend a) Hrel) in Hr.
      apply Hown in Hr. exact Hr.
    + rewrite Hb2, scene_after_disposals, Hrep1. exact Hsc1.
    + rewrite Hsc2. exact Hsc1.
    + reflexivity.
    + congruence.
    + congruence.
    + congruence.
  - split; [exists []; repeat constructor|].
    split; [apply nil_of_no_member; intros r Hr; apply (Hown r Hr)|].
    split; [congruence|].
    split; [exact Hact|].
    repeat split; assumption.
Qed.

Lemma removeGiraffe_Inv (a : App) : Inv a -> Inv (removeGiraffe a).
Proof.
  intro HI. pose proof (removeGiraffe_spec a HI) as H. cbv zeta in H.
  destruct H as [[rel [Hb [Hrel Hfr]]] [Hlive [Hsc [Hsm [Hg [Hn _]]]]]].
  destruct HI as [Hl Hs Hrep Hact Hown Hfresh Hafr].
  destruct (always_releases rel (backend a) Hrel (conj Hl Hs)) as [Hl' Hs'].
  constructor; unfold activeModel, activeResources; rewrite ?Hg, ?Hn.
  - rewrite Hb. exact Hl'.
  - rewrite Hb. exact Hs'.
  - congruence.
  - exact Hsm.
  - rewrite Hlive. apply incl_nil_l.
  - rewrite Hb. apply Forall_app; split; assumption.
  - constructor.
Qed.

(** Creating the objects of a fresh model while nothing else is live. *)
Lemma creations_spec (id : nat) (old : list Event) :
  liveAfter old = [] ->
  always oneLiveModel old ->
  always oneLiveModel (creations id ++ old) /\
  liveAfter (creations id ++ old) = map (pair id) (rev constructed) /\
  inSceneAfter (creations id ++ old) = inSceneAfter old.
Proof.
  intros Hnil Hold.
  assert (G : forall slots,
    always oneLiveModel (rev (map (fun s => Created (id, s)) slots) ++ old) /\
    liveAfter (rev (map (fun s => Created (id, s)) slots) ++ old)
    = map (pair id) (rev slots) /\
    inSceneAfter (rev (map (fun s => Created (id, s)) slots) ++ old)
    = inSceneAfter old).
  { intro slots. induction slots as [|s slots IH] using rev_ind.
    - simpl. auto.
    - destruct IH as [IH1 [IH2 IH3]].
      rewrite map_app, !rev_app_distr. simpl.
      rewrite IH2. split; [|split; [reflexivity|exact IH3]].
      split; [|exact IH1].
      intros r1 r2 H1 H2. simpl in H1, H2. rewrite IH2 in H1, H2.
      assert (F : forall r, (id, s) = r \/ In r (map (pair id) (rev slots)) ->
                            fst r = id).
      { intros r [<-|Hr]; [reflexivity|].
        apply in_map_iff in Hr. destruct Hr as [x [<- _]]. reflexivity. }
      rewrite (F r1), (F r2); auto. }
  exact (G constructed).
Qed.

Lemma created_are_owned (id : nat) (n l h hs : number) (c sc : string)
    (rnd : RandomSource) :
  oid (modelOf id n l h hs c sc rnd) = id /\
  incl (map (pair id) (rev constructed))
       (ownedBy (modelOf id n l h hs c sc rnd)) /\
  length (children (modelOf id n l h hs c sc rnd)) = 4%nat.
Proof.
  split; [reflexivity|]. split; [|reflexivity].
  unfold ownedBy. build. intros r Hr. simpl in Hr. simpl.
  intuition (subst; auto).
Qed.

Lemma removeGiraffe_frame (a : App) :
  nextId (removeGiraffe a) = nextId a /\
  signals (removeGiraffe a) = signals a /\
  entropy (removeGiraffe a) = entropy a /\
  console (removeGiraffe a) = console a /\
  downloads (removeGiraffe a) = downloads a.
Proof.
  unfold removeGiraffe. destruct (giraffe a) as [g|]; [|repeat split].
  destruct (disposeAll_frame (oid g) (children g) (scene_remove g a))
    as [Hsig [_ [_ [Hn [Hent [Hcon [Hdl _]]]]]]].
  simpl. rewrite Hsig, Hn, Hent, Hcon, Hdl.
  unfold scene_remove.
  destruct (existsb (isObject (oid g)) (scene a)); repeat split.
Qed.

(** [redrawGiraffe], statement by statement. *)
Lemma redrawGiraffe_unfold (a : App) :
  let mid := removeGiraffe a in
  let a' := redrawGiraffe a in
  giraffe a' = Some (nextModel a) /\
  backend a' = SceneAdded (nextId a) :: creations (nextId a) ++ backend mid /\
  scene a' = scene mid ++ [Model (nextModel a)] /\
  nextId a' = S (nextId a) /\
  signals a' = signals a.
Proof.
  destruct (removeGiraffe_frame a) as [Hn [Hsig [Hent _]]].
  cbv zeta. unfold redrawGiraffe, nextModel, modelOf.
  rewrite Hn, Hsig, Hent.
  destruct (createGiraffe (nextId a) (neckLength (signals a))
              (legLength (signals a)) (hornLength (signals a))
              (headSize (signals a)) (giraffeColor (signals a))
              (spotColor (signals a)) (entropy a)) as [g rest] eqn:E.
  assert (Hid : oid g = nextId a).
  { change g with (fst (g, rest)). rewrite <- E. reflexivity. }
  simpl. rewrite Hid, Hn. repeat split; assumption.
Qed.

Lemma inSceneAfter_added (id : nat) (t : list Event) :
  inSceneAfter (SceneAdded id :: t) = inSceneAfter t ++ [id].
Proof. reflexivity. Qed.

Lemma liveAfter_added (id : nat) (t : list Event) :
  liveAfter (SceneAdded id :: t) = liveAfter t.
Proof. reflexivity. Qed.

Lemma redrawGiraffe_Inv (a : App) : Inv a -> Inv (redrawGiraffe a).
Proof.
  intro HI.
  pose proof (redrawGiraffe_unfold a) as H. cbv zeta in H.
  destruct H as [Hg [Hb [Hsc [Hn _]]]].
  pose proof (removeGiraffe_spec a HI) as H. cbv zeta in H.
  destruct H as [_ [Hlive [Hscene [Hsm _]]]].
  destruct (removeGiraffe_Inv a HI) as [Hl Hs Hrep Hact Hown Hfresh Hafr].
  destruct (created_are_owned (nextId a)
              (neckLength (signals a)) (legLength (signals a))
              (hornLength (signals a)) (headSize (signals a))
              (giraffeColor (signals a)) (spotColor (signals a))
              (entropy a)) as [Hid [Hincl _]].
  fold (nextModel a) in Hid, Hincl.
  destruct (creations_spec (nextId a) _ Hlive Hl) as [Hc1 [Hc2 Hc3]].
  assert (Hnm : nextId (removeGiraffe a) = nextId a).
  { pose proof (removeGiraffe_spec a HI) as H. cbv zeta in H. tauto. }
  constructor; unfold activeModel, activeResources; rewrite ?Hg, ?Hb, ?Hsc, ?Hn.
  - split; [|exact Hc1].
    intros r1 r2 H1 H2. rewrite liveAfter_added in H1, H2.
    exact (always_now _ _ Hc1 r1 r2 H1 H2).
  - split.
    + unfold oneSceneModel. rewrite inSceneAfter_added, Hc3, Hscene.
      simpl. lia.
    + assert (G : forall new, Forall (fun e => match e with Created _ => True
                                                       | _ => False end) new ->
                always oneSceneModel (new ++ backend (removeGiraffe a))).
      { induction 1 as [|e new He _ IH]; simpl app; [exact Hs|].
        destruct e; try contradiction. split; [|exact IH].
        unfold oneSceneModel. simpl.
        exact (always_now _ _ IH). }
      apply G. unfold creations. apply Forall_rev, Forall_map.
      apply Forall_forall. intros; exact I.
  - rewrite inSceneAfter_added, Hc3, Hscene, sceneModels_app, Hsm.
    reflexivity.
  - rewrite sceneModels_app, Hsm, Hid. reflexivity.
  - rewrite liveAfter_added, Hc2. exact Hincl.
  - constructor; [simpl; lia|]. apply Forall_app; split.
    + unfold creations. apply Forall_rev, Forall_map, Forall_forall.
      intros s _. simpl. lia.
    + eapply Forall_impl; [|exact Hfresh]. simpl. intros e He.
      rewrite Hnm in He. lia.
  - rewrite Hid. repeat constructor.
Qed.

Lemma onResize_frame (a a' : App) :
  onResize a = Normal a' ->
  backend a' = backend a /\ scene a' = scene a /\ giraffe a' = giraffe a /\
  nextId a' = nextId a /\ signals a' = signals a.
Proof.
  unfold onResize.
  destruct (canvasContainerRef a) as [container|];
    destruct (camera a) as [cam|]; destruct (renderer a) as [rend|]; simpl;
    try (intro H; injection H as <-; repeat split).
  destruct ((clientWidth container =? 0)%Z || (clientHeight container =? 0)%Z);
    intro H; injection H as <-; repeat split.
Qed.

Lemma ngOnDestroy_Inv (a : App) : Inv a -> Inv (ngOnDestroy a).
Proof.
  intro HI. unfold ngOnDestroy.
  set (a1 := if animating a then set_animating false a else a).
  assert (H1 : Inv a1).
  { subst a1. destruct (animating a); [|exact HI].
    apply (Inv_frame a); auto. }
  set (a2 := match renderer a1 with
             | Some r => set_renderer
                 (Some (mkRenderer (surfaceWidth r) (surfaceHeight r) true)) a1
             | None => a1 end).
  assert (H2 : Inv a2).
  { subst a2. destruct (renderer a1); [|exact H1].
    apply (Inv_frame a1); auto. }
  destruct (giraffe a2); [apply removeGiraffe_Inv|]; exact H2.
Qed.

Lemma Step_Inv (a a' : App) : Step a a' -> Inv a -> Inv a'.
Proof.
  intros HS HI. destruct HS;
    try (apply (Inv_frame a); [reflexivity..|exact HI]).
  - unfold effect_redraw. destruct (isViewInitialized (signals a));
      [apply redrawGiraffe_Inv|]; exact HI.
  - unfold effect_autoRotate. destruct (isViewInitialized (signals a));
      [apply (Inv_frame a); auto|exact HI].
  - unfold hostLayout. destruct (canvasContainerRef a);
      [apply (Inv_frame a); auto|exact HI].
  - destruct (onResize_frame a a' H) as [Hb [Hs [Hg [Hn _]]]].
    apply (Inv_frame a); assumption.
  - unfold downloadModel. destruct (giraffe a) as [g|] eqn:Hg.
    + destruct (parse g (mkOptions true)) as [[buf|doc]|err];
        apply (Inv_frame a); auto.
    + apply (Inv_frame a); auto.
  - apply ngOnDestroy_Inv, HI.
Qed.

Lemma init_Inv (canvas : bool) (container : option Container)
    (rnd : RandomSource) :
  Inv (ngAfterViewInit (newComponent canvas container rnd)).
Proof.
  destruct canvas, container as [ct|];
    (constructor; simpl; try reflexivity; try constructor;
     try (intros r1 r2 H; contradiction); try (unfold oneSceneModel; simpl; lia);
     try apply incl_nil_l).
Qed.

Theorem Reachable_Inv (a : App) : Reachable a -> Inv a.
Proof.
  induction 1 as [canvas container rnd|a a' _ IH HS].
  - apply init_Inv.
  - exact (Step_Inv a a' HS IH).
Qed.

(** ** Lifecycle theorems *)

(** C2. In every reachable state, and at every instant of the run that led
    to it, all live buffers and materials belong to one model and the
    scene has at most one model child, the active one.  When the model is
    regenerated, [removeGiraffe] comes first and only releases: after it
    nothing is live, the scene has no model and the field is null; only
    then are the objects of the replacement created, under an identity
    never seen before, and the replacement added to the scene, so that the
    live objects are exactly those of the new model and it is the scene's
    only model. *)
Theorem one_model_at_a_time (a : App) :
  Reachable a ->
  always oneLiveModel (backend a) /\
  always oneSceneModel (backend a) /\
  (length (sceneModels (scene a)) <= 1)%nat /\
  sceneModels (scene a) = activeModel a /\
  let mid := removeGiraffe a in
  let a' := redrawGiraffe a in
  (exists released,
      backend mid = released ++ backend a /\ Forall isRelease released) /\
  liveAfter (backend mid) = [] /\
  sceneModels (scene mid) = [] /\
  giraffe mid = None /\
  backend a' = SceneAdded (nextId a) :: creations (nextId a) ++ backend mid /\
  ~ In (nextId a) (map eventModel (backend mid)) /\
  giraffe a' = Some (nextModel a) /\
  liveAfter (backend a') = map (pair (oid (nextModel a))) (rev constructed) /\
  sceneModels (scene a') = [oid (nextModel a)] /\
  always oneLiveModel (backend a') /\
  always oneSceneModel (backend a').
Proof.
  intro HR. pose proof (Reachable_Inv a HR) as HI.
  pose proof (removeGiraffe_spec a HI) as Hrem. cbv zeta in Hrem.
  destruct Hrem as [[rel [Hb [Hrel Hrfresh]]] [Hlive [Hscn [Hsm [Hg [Hn _]]]]]].
  pose proof (redrawGiraffe_unfold a) as Hred. cbv zeta in Hred.
  destruct Hred as [Hg' [Hb' [Hsc' _]]].
  pose proof (redrawGiraffe_Inv a HI) as HI'.
  pose proof (removeGiraffe_Inv a HI) as HIm.
  destruct (creations_spec (nextId a) _ Hlive (inv_live _ HIm)) as [_ [Hc2 _]].
  split; [exact (inv_live _ HI)|].
  split; [exact (inv_scene _ HI)|].
  split; [rewrite (inv_active _ HI); unfold activeModel;
          destruct (giraffe a); simpl; lia|].
  split; [exact (inv_active _ HI)|].
  cbv zeta.
  split; [exists rel; split; assumption|].
  split; [exact Hlive|].
  split; [exact Hsm|].
  split; [exact Hg|].
  split; [exact Hb'|].
  split.
  { intro Hin. apply in_map_iff in Hin. destruct Hin as [e [He Hin]].
    pose proof (inv_fresh _ HIm) as Hf. rewrite Forall_forall in Hf.
    specialize (Hf e Hin). rewrite Hn, He in Hf. lia. }
  split; [exact Hg'|].
  split; [rewrite Hb', liveAfter_added, Hc2; reflexivity|].
  split; [rewrite Hsc', sceneModels_app, Hsm; reflexivity|].
  split; [exact (inv_live _ HI')|exact (inv_scene _ HI')].
Qed.

Lemma one_model_at_a_time_witness :
  Reachable (effect_redraw freshView) /\
  liveAfter (backend (removeGiraffe (effect_redraw freshView))) = [].
Proof.
  assert (HR : Reachable (effect_redraw freshView)).
  { exact (reach_step _ _
             (reach_init true (Some (mkContainer 800 600)) (fun _ => 0))
             (step_effect_redraw _)). }
  split; [exact HR|].
  exact (proj1 (proj2 (proj2 (proj2 (proj2 (proj2
           (one_model_at_a_time _ HR))))))).
Defined.

(** ** Export theorems *)

Lemma freshView_initialized (v : number) :
  isViewInitialized (signals (onNeckLengthChange v freshView)) = true /\
  isViewInitialized (signals freshView) = true.
Proof. split; reflexivity. Qed.








(** ** Parameter handlers *)

(** C8, as stated, fails: after the neck length handler was given -1 and
    the model regenerated, the component is in a reachable state whose
    parameters break the invariant and whose model has a neck cylinder of
    height -1. *)
Lemma negative_length_drives_regeneration :
  Reachable negativeNeck /\
  ~ validParameters (signals negativeNeck) /\
  exists g, giraffe negativeNeck = Some g /\
            map shape (neckOf g) = [CylinderGeometry 0.75 0.95 (-1)].
Proof.
  assert (Hn : negativeNeck = redrawGiraffe (onNeckLengthChange (-1) freshView)).
  { unfold negativeNeck, effect_redraw.
    rewrite (proj1 (freshView_initialized (-1))). reflexivity. }
  destruct (redrawGiraffe_unfold (onNeckLengthChange (-1) freshView))
    as [Hg [_ [_ [_ Hsig]]]].
  split; [|split].
  - exact (reach_step _ _
             (reach_step _ _
                (reach_init true (Some (mkContainer 800 600)) (fun _ => 0))
                (step_neck (-1) _))
             (step_effect_redraw _)).
  - rewrite Hn, Hsig. unfold validParameters. intros [H _].
    change (0 < -1) in H. lra.
  - rewrite Hn. eexists. split; [exact Hg|]. reflexivity.
Qed.

(** C8, amended.  Each of the four numeric handlers stores the number it
    is given as it is, whatever its sign or size, and does nothing else:
    no check is made, and the model, the scene and the backend are left
    alone.  The next regeneration builds the model from the stored
    values: the neck, the legs and the horns get the stored lengths as
    heights and the head box is the stored head size times 2, 2 and 2.5. *)
Theorem handlers_store_unvalidated (v : number) (a : App) :
  neckLength (signals (onNeckLengthChange v a)) = v /\
  legLength (signals (onLegLengthChange v a)) = v /\
  hornLength (signals (onHornLengthChange v a)) = v /\
  headSize (signals (onHeadSizeChange v a)) = v /\
  (giraffe (onNeckLengthChange v a) = giraffe a /\
   giraffe (onLegLengthChange v a) = giraffe a /\
   giraffe (onHornLengthChange v a) = giraffe a /\
   giraffe (onHeadSizeChange v a) = giraffe a) /\
  (backend (onNeckLengthChange v a) = backend a /\
   backend (onLegLengthChange v a) = backend a /\
   backend (onHornLengthChange v a) = backend a /\
   backend (onHeadSizeChange v a) = backend a) /\
  (giraffe (redrawGiraffe (onNeckLengthChange v a))
   = Some (nextModel (onNeckLengthChange v a)) /\
   map shape (neckOf (nextModel (onNeckLengthChange v a)))
   = [CylinderGeometry 0.75 0.95 v]) /\
  (giraffe (redrawGiraffe (onLegLengthChange v a))
   = Some (nextModel (onLegLengthChange v a)) /\
   map shape (legsOf (nextModel (onLegLengthChange v a)))
   = repeat (CylinderGeometry 0.4 0.3 v) 4) /\
  (giraffe (redrawGiraffe (onHornLengthChange v a))
   = Some (nextModel (onHornLengthChange v a)) /\
   map shape (hornsOf (nextModel (onHornLengthChange v a)))
   = repeat (CylinderGeometry (0.2 * headSize (signals a))
                              (0.2 * headSize (signals a)) v) 2) /\
  (giraffe (redrawGiraffe (onHeadSizeChange v a))
   = Some (nextModel (onHeadSizeChange v a)) /\
   map shape (headOf (nextModel (onHeadSizeChange v a)))
   = [BoxGeometry (2 * v) (2 * v) (2.5 * v)]).
Proof.
  repeat (split; [reflexivity|]).
  split; [repeat split; reflexivity|].
  split; [repeat split; reflexivity|].
  split; [split; [apply redrawGiraffe_unfold|reflexivity]|].
  split; [split; [apply redrawGiraffe_unfold|reflexivity]|].
  split; [split; [apply redrawGiraffe_unfold|reflexivity]|].
  split; [apply redrawGiraffe_unfold|reflexivity].
Qed.

(** ** Resize theorems *)

(** C9. [onResize] never throws.  With the view set up and a container of
    non-zero width and height, the camera's aspect becomes width/height,
    the projection matrix is rebuilt from it and the renderer's surface
    becomes width by height, and nothing else changes.  When the width or
    the height is zero the state, camera and renderer included, is
    returned as it was. *)
Theorem onResize_spec (a : App) :
  (exists a', onResize a = Normal a') /\
  (forall container,
      canvasContainerRef a = Some container ->
      (clientWidth container = 0 \/ clientHeight container = 0)%Z ->
      onResize a = Normal a) /\
  (forall container cam rend,
      canvasContainerRef a = Some container ->
      camera a = Some cam -> renderer a = Some rend ->
      clientWidth container <> 0%Z -> clientHeight container <> 0%Z ->
      let ratio :=
        IZR (clientWidth container) / IZR (clientHeight container) in
      exists a',
        onResize a = Normal a' /\
        camera a' = Some (mkCamera (Finite ratio) (Finite ratio)) /\
        renderer a'
        = Some (mkRenderer (clientWidth container) (clientHeight container)
                           (rendererDisposed rend)) /\
        a' = set_renderer (renderer a') (set_camera (camera a') a)).
Proof.
  split; [|split].
  - unfold onResize.
    destruct (canvasContainerRef a) as [container|];
      destruct (camera a) as [cam|]; destruct (renderer a) as [rend|]; simpl;
      try (eexists; reflexivity).
    destruct ((clientWidth container =? 0)%Z || (clientHeight container =? 0)%Z);
      eexists; reflexivity.
  - intros container Hc Hzero. unfold onResize. rewrite Hc.
    destruct (camera a) as [cam|]; destruct (renderer a) as [rend|]; simpl;
      try reflexivity.
    assert (E : ((clientWidth container =? 0)%Z
                 || (clientHeight container =? 0)%Z) = true).
    { apply orb_true_iff. rewrite !Z.eqb_eq. exact Hzero. }
    rewrite E. reflexivity.
  - intros container cam rend Hc Hcam Hrend Hw Hh ratio.
    unfold onResize, divide. rewrite Hc, Hcam, Hrend. simpl.
    apply Z.eqb_neq in Hw. apply Z.eqb_neq in Hh. rewrite Hw, Hh. simpl.
    eexists. split; [reflexivity|]. simpl. repeat split.
Qed.

Lemma onResize_spec_witness :
  onResize (hostLayout 0 600 freshView) = Normal (hostLayout 0 600 freshView).
Proof.
  apply (proj1 (proj2 (onResize_spec (hostLayout 0 600 freshView)))
           (mkContainer 0 600)).
  - reflexivity.
  - left. reflexivity.
Defined.

(** ** Further geometry *)

(** X1. For every leg length (and whatever the other parameters), the model
    has four legs whose top caps lie in the plane of the body's bottom
    face and whose bottom caps, after the lift of the root, are at world
    height 0. *)
Theorem feet_on_ground (id : nat) (n l h hs : number) (c sc : string)
    (rnd : RandomSource) :
  let g := modelOf id n l h hs c sc rnd in
  length (legsOf g) = 4%nat /\
  Forall (fun leg =>
            footHeight g leg = 0 /\
            exists body, bodyOf g = [body] /\
              vy (vertexOf leg (topCap (shape leg)))
              = vy (vertexOf body (bottomCap (shape body))))
         (legsOf g).
Proof.
  intro g; subst g. split; [reflexivity|].
  build. repeat constructor; try (build; lra).
  all: eexists; split; [reflexivity|]; build; lra.
Qed.

(** X2. For positive neckLength, headSize and hornLength the body, the
    neck, the head and the horns occupy consecutive ranges of height:
    each part's bottom is level with the top of the part under it (the
    neck's bottom cap with the body's top face, the head's bottom face
    with the neck's top cap, the base of each horn with the head's top
    face) and lies below that part's own top, so that the parts touch and
    none reaches into the height range of another. *)
Theorem parts_are_stacked (id : nat) (n l h hs : number) (c sc : string)
    (rnd : RandomSource) :
  0 < n -> 0 < hs -> 0 < h ->
  let g := modelOf id n l h hs c sc rnd in
  exists body neck head horn1 horn2,
    bodyOf g = [body] /\ neckOf g = [neck] /\ headOf g = [head] /\
    hornsOf g = [horn1; horn2] /\
    let bottom := fun b => vy (vertexOf b (bottomCap (shape b))) in
    let top := fun b => vy (vertexOf b (topCap (shape b))) in
    bottom body < top body /\
    top body = bottom neck /\ bottom neck < top neck /\
    top neck = bottom head /\ bottom head < top head /\
    (top head = bottom horn1 /\ bottom horn1 < top horn1) /\
    (top head = bottom horn2 /\ bottom horn2 < top horn2).
Proof.
  intros Hn Hhs Hh g; subst g.
  do 5 eexists. do 4 (split; [reflexivity|]).
  cbv zeta. repeat split; geo; lra.
Qed.

Lemma parts_are_stacked_witness :
  exists neck head,
    neckOf (modelOf 0 6 4 0.8 1 "#FFC300" "#8B4513" (fun _ => 0)) = [neck] /\
    headOf (modelOf 0 6 4 0.8 1 "#FFC300" "#8B4513" (fun _ => 0)) = [head] /\
    vy (vertexOf neck (topCap (shape neck)))
    = vy (vertexOf head (bottomCap (shape head))).
Proof.
  assert (H6 : 0 < 6) by lra. assert (H1 : 0 < 1) by lra.
  assert (H8 : 0 < 0.8) by lra.
  destruct (parts_are_stacked 0 6 4 0.8 1 "#FFC300" "#8B4513" (fun _ => 0)
              H6 H1 H8)
    as [body [neck [head [horn1 [horn2 [_ [Hn [Hh [_ H]]]]]]]]].
  exists neck, head. split; [exact Hn|]. split; [exact Hh|].
  cbv zeta in H. apply H.
Defined.

(** X3. Whatever the parameters, the head's attachments touch the head:
    the inner face of each ear lies in the plane of the head's side face
    on its side, the snout is centred on the plane of the head's front
    face, and the two horns, the two ears and the two eyes are mirror
    images of each other in the plane x = 0 (same shape, same height and
    depth, opposite x). *)
Theorem head_attachments (id : nat) (n l h hs : number) (c sc : string)
    (rnd : RandomSource) :
  let g := modelOf id n l h hs c sc rnd in
  exists head snout ear1 ear2 horn1 horn2 eye1 eye2,
    headOf g = [head] /\ snoutOf g = [snout] /\ earsOf g = [ear1; ear2] /\
    hornsOf g = [horn1; horn2] /\ eyesOf g = [eye1; eye2] /\
    vx (vertexOf ear1 (leftFace (shape ear1)))
    = vx (vertexOf head (rightFace (shape head))) /\
    vx (vertexOf ear2 (rightFace (shape ear2)))
    = vx (vertexOf head (leftFace (shape head))) /\
    vz (centerOf snout) = vz (vertexOf head (frontFace (shape head))) /\
    vx (centerOf snout) = vx (centerOf head) /\
    (shape ear2 = shape ear1 /\
     centerOf ear2
     = mkVector3 (- vx (centerOf ear1)) (vy (centerOf ear1)) (vz (centerOf ear1))) /\
    (shape horn2 = shape horn1 /\
     centerOf horn2
     = mkVector3 (- vx (centerOf horn1)) (vy (centerOf horn1))
                 (vz (centerOf horn1))) /\
    (pshape eye2 = pshape eye1 /\
     pcenter eye2
     = mkVector3 (- vx (pcenter eye1)) (vy (pcenter eye1)) (vz (pcenter eye1))).
Proof.
  intro g; subst g.
  do 8 eexists. do 5 (split; [reflexivity|]).
  repeat split; geo; vector.
Qed.

(** X4. The tail shaft hangs from the attachment point and the tuft sits
    at its end: the baked transforms of the tail cylinder take its top cap
    to (0, 1, -2.5), on the back face of the body, and its bottom cap to
    the centre of the tuft. *)
Theorem tuft_at_tail_end (id : nat) (n l h hs : number) (c sc : string)
    (rnd : RandomSource) :
  let g := modelOf id n l h hs c sc rnd in
  exists tail tassel body,
    tailOf g = [tail] /\ tasselOf g = [tassel] /\ bodyOf g = [body] /\
    vertexOf tail (topCap (shape tail)) = mkVector3 0 1 (-2.5) /\
    vz (vertexOf tail (topCap (shape tail)))
    = - vz (vertexOf body (frontFace (shape body))) /\
    vertexOf tail (bottomCap (shape tail)) = centerOf tassel /\
    vy (centerOf tassel) = 1 - sqrt 2 /\
    vz (centerOf tassel) = -2.5 - sqrt 2.
Proof.
  intro g; subst g.
  assert (Hs : sqrt 2 * sqrt 2 = 2) by (apply sqrt_sqrt; lra).
  assert (Hp : 0 < sqrt 2) by (apply sqrt_lt_R0; lra).
  assert (Hc : cos (PI / 4) = sqrt 2 / 2).
  { rewrite cos_PI4. field_simplify_eq; [nra|lra]. }
  assert (Hn : sin (PI / 4) = sqrt 2 / 2).
  { rewrite sin_PI4. field_simplify_eq; [nra|lra]. }
  do 3 eexists. do 3 (split; [reflexivity|]).
  repeat split; geo; rewrite ?Hc, ?Hn; vector.
Qed.

(** X5. Whatever the parameters and the random numbers, each of the four
    neck spots sits on the neck: at the fraction p of the neck's height
    its centre is exactly as far from the neck's axis as the tapered
    cylinder is thick there, and the spot faces outward along that
    radius. *)
Theorem neck_spots_on_surface (id : nat) (n l h hs : number) (c sc : string)
    (rnd : RandomSource) :
  let g := modelOf id n l h hs c sc rnd in
  exists neck, neckOf g = [neck] /\
    Forall2 (sitsOnNeck neck) neckSites (neckSpotsOf g).
Proof.
  intro g; subst g. eexists. split; [reflexivity|].
  build. repeat constructor; unfold sitsOnNeck; geo.
  all: repeat split; try (unfold number; lra).
  all: try (match goal with
            | |- context [sin ?a] =>
                pose proof (sin2_cos2 a) as Hsc; unfold Rsqr in Hsc; nra
            end).
  all: vector.
Qed.

(** X15. Whatever the parameters, a model has four children in this order:
    the two eyes, the structural mesh and the pattern mesh.  The
    structural mesh carries the textured material of the body colour and
    the pattern mesh that of the spot colour, both casting and receiving
    shadows; the eyes share one black basic material, which the noise does
    not touch, and cast no shadow.  The structural mesh does not depend on
    the spot colour, and the geometry of the pattern mesh does not depend
    on either colour. *)
Theorem colours_are_routed (id : nat) (n l h hs : number) (c sc : string)
    (rnd : RandomSource) :
  let g := modelOf id n l h hs c sc rnd in
  exists eye1 eye2 body pattern,
    children g = [eye1; eye2; body; pattern] /\
    (geometryRef body = MergedGiraffeGeo /\
     material body = createTexturedMaterial c /\
     castShadow body = true /\ receiveShadow body = true) /\
    (geometryRef pattern = MergedSpotGeo /\
     material pattern = createTexturedMaterial sc /\
     castShadow pattern = true /\ receiveShadow pattern = true) /\
    (material eye1 = MeshBasicMaterial 0 /\ material eye2 = material eye1 /\
     geometryRef eye2 = geometryRef eye1 /\
     materialRef eye2 = materialRef eye1 /\
     geometry eye2 = geometry eye1 /\
     castShadow eye1 = false /\ castShadow eye2 = false /\
     forall colour p, colorFragment (material eye1) colour p = colour) /\
    (forall c' sc' id',
        meshWith MergedGiraffeGeo (modelOf id' n l h hs c sc' rnd)
        = Some body /\
        geometriesOf MergedSpotGeo (modelOf id' n l h hs c' sc' rnd)
        = geometry pattern).
Proof.
  intro g; subst g. do 4 eexists.
  split; [reflexivity|].
  repeat split; reflexivity.
Qed.

(** X16. Whatever the parameters, the tips of both horns are at world
    height legLength + 3 + neckLength + 2 * headSize + hornLength, the sum
    of the heights of the parts stacked under them, and the top of the head
    is hornLength lower. *)
Theorem overall_height (id : nat) (n l h hs : number) (c sc : string)
    (rnd : RandomSource) :
  let g := modelOf id n l h hs c sc rnd in
  length (hornsOf g) = 2%nat /\
  Forall (fun horn =>
            worldY g (vertexOf horn (topCap (shape horn)))
            = l + 3 + n + 2 * hs + h)
         (hornsOf g) /\
  exists head, headOf g = [head] /\
    worldY g (vertexOf head (topCap (shape head))) = l + 3 + n + 2 * hs.
Proof.
  intro g; subst g. split; [reflexivity|]. split.
  - build. repeat constructor; build; unfold number in *; lra.
  - eexists. split; [reflexivity|]. build. unfold number in *. lra.
Qed.

(** ** More on the lifecycle *)

Lemma redrawGiraffe_view (a : App) :
  camera (redrawGiraffe a) = camera a /\
  renderer (redrawGiraffe a) = renderer a /\
  canvasContainerRef (redrawGiraffe a) = canvasContainerRef a /\
  console (redrawGiraffe a) = console a /\
  animating (redrawGiraffe a) = animating a.
Proof.
  assert (F : camera (removeGiraffe a) = camera a /\
              renderer (removeGiraffe a) = renderer a /\
              canvasContainerRef (removeGiraffe a) = canvasContainerRef a /\
              console (removeGiraffe a) = console a /\
              animating (removeGiraffe a) = animating a).
  { unfold removeGiraffe. destruct (giraffe a) as [g|]; [|repeat split].
    assert (G : forall ms b,
      camera (fold_left (disposeMesh (oid g)) ms b) = camera b /\
      renderer (fold_left (disposeMesh (oid g)) ms b) = renderer b /\
      canvasContainerRef (fold_left (disposeMesh (oid g)) ms b)
      = canvasContainerRef b /\
      console (fold_left (disposeMesh (oid g)) ms b) = console b /\
      animating (fold_left (disposeMesh (oid g)) ms b) = animating b).
    { induction ms as [|m ms IH]; intro b; simpl; [repeat split|].
      apply (IH (disposeMesh (oid g) b m)). }
    simpl. destruct (G (children g) (scene_remove g a)) as [H1 [H2 [H3 [H4 H5]]]].
    rewrite H1, H2, H3, H4, H5. unfold scene_remove.
    destruct (existsb (isObject (oid g)) (scene a)); repeat split. }
  destruct F as [F1 [F2 [F3 [F4 F5]]]].
  unfold redrawGiraffe.
  destruct (createGiraffe _ _ _ _ _ _ _ _) as [g rest]. simpl.
  repeat split; assumption.
Qed.

(** X7. [removeGiraffe] always leaves the component without a model; a
    second call changes nothing, and so does a call when there is no
    model. *)
Theorem removeGiraffe_idempotent (a : App) :
  giraffe (removeGiraffe a) = None /\
  removeGiraffe (removeGiraffe a) = removeGiraffe a /\
  (giraffe a = None -> removeGiraffe a = a).
Proof.
  assert (H : giraffe (removeGiraffe a) = None).
  { unfold removeGiraffe. destruct (giraffe a) eqn:E; [reflexivity|exact E]. }
  split; [exact H|]. split.
  - unfold removeGiraffe at 1. rewrite H. reflexivity.
  - intro E. unfold removeGiraffe. rewrite E. reflexivity.
Qed.

Lemma removeGiraffe_idempotent_witness :
  removeGiraffe freshView = freshView.
Proof.
  apply (proj2 (proj2 (removeGiraffe_idempotent freshView))). reflexivity.
Defined.

Lemma existsb_last (id : nat) (s : list SceneChild) (g : Group) :
  oid g = id -> existsb (isObject id) (s ++ [Model g]) = true.
Proof.
  intro H. rewrite existsb_app. simpl. rewrite H, Nat.eqb_refl.
  rewrite orb_true_r. reflexivity.
Qed.

Lemma disposals_of_model (id : nat) (n l h hs : number) (c sc : string)
    (rnd : RandomSource) :
  disposals id (children (modelOf id n l h hs c sc rnd))
  = [ Disposed (id, SpotMaterial); Disposed (id, MergedSpotGeo);
      Disposed (id, GiraffeMaterial); Disposed (id, MergedGiraffeGeo);
      Disposed (id, EyeMaterial); Disposed (id, EyeGeo);
      Disposed (id, EyeMaterial); Disposed (id, EyeGeo) ].
Proof. unfold disposals. build. reflexivity. Qed.

Lemma removeGiraffe_backend (b : App) (g : Group) :
  giraffe b = Some g ->
  existsb (isObject (oid g)) (scene b) = true ->
  backend (removeGiraffe b)
  = disposals (oid g) (children g) ++ SceneRemoved (oid g) :: backend b.
Proof.
  intros Hg Hex. unfold removeGiraffe. rewrite Hg.
  change (backend (fold_left (disposeMesh (oid g)) (children g)
                             (scene_remove g b))
          = disposals (oid g) (children g) ++ SceneRemoved (oid g) :: backend b).
  rewrite disposeAll_backend. unfold scene_remove. rewrite Hex. reflexivity.
Qed.

Lemma nextModel_oid (a : App) : oid (nextModel a) = nextId a.
Proof. reflexivity. Qed.

(** X8. Removing a model that [redrawGiraffe] has just built takes it out
    of the scene and then disposes, mesh by mesh, the geometry and the
    material of the two eyes, of the structural mesh and of the pattern
    mesh: each of the six objects the model owns is disposed, and the eye
    geometry and eye material, which the two eye meshes share, are
    disposed twice. *)
Theorem removal_disposes_every_object (a : App) :
  let b := redrawGiraffe a in
  let id := nextId a in
  backend (removeGiraffe b)
  = [ Disposed (id, SpotMaterial); Disposed (id, MergedSpotGeo);
      Disposed (id, GiraffeMaterial); Disposed (id, MergedGiraffeGeo);
      Disposed (id, EyeMaterial); Disposed (id, EyeGeo);
      Disposed (id, EyeMaterial); Disposed (id, EyeGeo);
      SceneRemoved id ]
    ++ backend b /\
  (forall s, In s constructed ->
             In (Disposed (id, s)) (backend (removeGiraffe b))).
Proof.
  cbv zeta.
  destruct (redrawGiraffe_unfold a) as [Hg [_ [Hsc _]]].
  assert (Hex : existsb (isObject (oid (nextModel a)))
                        (scene (redrawGiraffe a)) = true).
  { rewrite Hsc. apply existsb_last. reflexivity. }
  pose proof (removeGiraffe_backend _ _ Hg Hex) as Hrm.
  rewrite nextModel_oid in Hrm.
  unfold nextModel in Hrm at 1. rewrite disposals_of_model in Hrm.
  split; [exact Hrm|].
  intros s Hs. rewrite Hrm. apply in_or_app. left.
  destruct s; simpl; tauto.
Qed.

Lemma onResize_cases (a a' : App) :
  onResize a = Normal a' ->
  a' = a \/
  exists ct cam rend,
    camera a = Some cam /\ renderer a = Some rend /\
    (canvasContainerRef a = Some ct /\
     clientWidth ct <> 0 /\ clientHeight ct <> 0)%Z /\
    a' = set_renderer
           (Some (mkRenderer (clientWidth ct) (clientHeight ct)
                             (rendererDisposed rend)))
           (set_camera
              (Some (mkCamera (divide (clientWidth ct) (clientHeight ct))
                              (divide (clientWidth ct) (clientHeight ct))))
              a).
Proof.
  unfold onResize.
  destruct (canvasContainerRef a) as [ct|] eqn:Ect;
    destruct (camera a) as [cam|] eqn:Ec;
    destruct (renderer a) as [rend|] eqn:Er; simpl;
    try (intro H; injection H as <-; left; reflexivity).
  destruct (clientWidth ct =? 0)%Z eqn:Ew; simpl;
    [intro H; injection H as <-; left; reflexivity|].
  destruct (clientHeight ct =? 0)%Z eqn:Eh; simpl;
    [intro H; injection H as <-; left; reflexivity|].
  intro H; injection H as <-. right. exists ct, cam, rend.
  apply Z.eqb_neq in Ew. apply Z.eqb_neq in Eh.
  repeat split; assumption.
Qed.

Lemma removeGiraffe_view (b : App) :
  camera (removeGiraffe b) = camera b /\
  renderer (removeGiraffe b) = renderer b /\
  animating (removeGiraffe b) = animating b.
Proof.
  unfold removeGiraffe. destruct (giraffe b) as [g|]; [|repeat split].
  assert (G : forall ms x,
    camera (fold_left (disposeMesh (oid g)) ms x) = camera x /\
    renderer (fold_left (disposeMesh (oid g)) ms x) = renderer x /\
    animating (fold_left (disposeMesh (oid g)) ms x) = animating x).
  { induction ms as [|m ms IH]; intro x; simpl; [repeat split|].
    apply (IH (disposeMesh (oid g) x m)). }
  destruct (G (children g) (scene_remove g b)) as [H1 [H2 H3]].
  change (camera (fold_left (disposeMesh (oid g)) (children g)
                            (scene_remove g b)) = camera b /\
          renderer (fold_left (disposeMesh (oid g)) (children g)
                              (scene_remove g b)) = renderer b /\
          animating (fold_left (disposeMesh (oid g)) (children g)
                               (scene_remove g b)) = animating b).
  rewrite H1, H2, H3. unfold scene_remove.
  destruct (existsb (isObject (oid g)) (scene b)); repeat split.
Qed.

Lemma ngOnDestroy_view (a : App) :
  camera (ngOnDestroy a) = camera a /\
  signals (ngOnDestroy a) = signals a /\
  ((forall r, renderer a = Some r ->
      renderer (ngOnDestroy a)
      = Some (mkRenderer (surfaceWidth r) (surfaceHeight r) true)) /\
   (renderer a = None -> giraffe a = None ->
      ngOnDestroy a = (if animating a then set_animating false a else a) /\
      renderer (ngOnDestroy a) = None)).
Proof.
  unfold ngOnDestroy.
  set (a1 := if animating a then set_animating false a else a).
  assert (H1 : camera a1 = camera a /\ renderer a1 = renderer a /\
               signals a1 = signals a /\ giraffe a1 = giraffe a).
  { subst a1. destruct (animating a); repeat split. }
  destruct H1 as [Hc1 [Hr1 [Hs1 Hg1]]].
  set (a2 := match renderer a1 with
             | Some r => set_renderer
                 (Some (mkRenderer (surfaceWidth r) (surfaceHeight r) true)) a1
             | None => a1 end).
  assert (H2 : camera a2 = camera a /\ signals a2 = signals a /\
               giraffe a2 = giraffe a /\
               (forall r, renderer a = Some r ->
                  renderer a2
                  = Some (mkRenderer (surfaceWidth r) (surfaceHeight r) true)) /\
               (renderer a = None -> a2 = a1)).
  { subst a2. rewrite Hr1. destruct (renderer a) as [r|].
    - repeat split; try assumption.
      + intros r' Hr'. injection Hr' as <-. reflexivity.
      + intro Hn. discriminate Hn.
    - repeat split; try assumption. intros r' Hr'. discriminate Hr'. }
  destruct H2 as [Hc2 [Hs2 [Hg2 [Hr2 Hn2]]]].
  destruct (removeGiraffe_view a2) as [F1 [F2 _]].
  destruct (removeGiraffe_frame a2) as [_ [F3 _]].
  split; [|split; [|split]].
  - destruct (giraffe a2); [rewrite F1|]; exact Hc2.
  - destruct (giraffe a2); [rewrite F3|]; exact Hs2.
  - intros r Hr. destruct (giraffe a2); [rewrite F2|]; apply Hr2, Hr.
  - intros Hn Hg. rewrite Hg2, Hg. rewrite (Hn2 Hn).
    split; [reflexivity|]. rewrite Hr1. exact Hn.
Qed.

(** X9. Destroying the component in any reachable state stops the
    animation, marks the renderer disposed and removes the model: after
    it no object is live, the scene holds no model and the model field is
    null. *)
Theorem destroy_releases_everything (a : App) :
  Reachable a ->
  let d := ngOnDestroy a in
  giraffe d = None /\
  liveAfter (backend d) = [] /\
  sceneModels (scene d) = [] /\
  animating d = false /\
  (forall r, renderer a = Some r ->
             renderer d
             = Some (mkRenderer (surfaceWidth r) (surfaceHeight r) true)) /\
  signals d = signals a.
Proof.
  intro HR. pose proof (Reachable_Inv a HR) as HI. cbv zeta.
  unfold ngOnDestroy.
  set (a1 := if animating a then set_animating false a else a).
  assert (H1 : Inv a1 /\ animating a1 = false /\ renderer a1 = renderer a /\
               signals a1 = signals a /\ giraffe a1 = giraffe a).
  { subst a1. destruct (animating a) eqn:E.
    - split; [apply (Inv_frame a); auto|repeat split].
    - split; [exact HI|repeat split; assumption]. }
  destruct H1 as [HI1 [Han1 [Hr1 [Hs1 Hg1]]]].
  set (a2 := match renderer a1 with
             | Some r => set_renderer
                 (Some (mkRenderer (surfaceWidth r) (surfaceHeight r) true)) a1
             | None => a1 end).
  assert (H2 : Inv a2 /\ animating a2 = false /\ signals a2 = signals a /\
               giraffe a2 = giraffe a /\
               (forall r, renderer a = Some r ->
                  renderer a2
                  = Some (mkRenderer (surfaceWidth r) (surfaceHeight r) true))).
  { subst a2. rewrite Hr1. destruct (renderer a) as [r|].
    - split; [apply (Inv_frame a1); auto|].
      repeat split; try assumption.
      intros r' Hr'. injection Hr' as <-. reflexivity.
    - split; [exact HI1|]. repeat split; try assumption.
      intros r' Hr'. discriminate Hr'. }
  destruct H2 as [HI2 [Han2 [Hs2 [Hg2 Hr2]]]].
  destruct (giraffe a2) as [g|] eqn:Eg.
  - pose proof (removeGiraffe_spec a2 HI2) as Hrem. cbv zeta in Hrem.
    destruct Hrem as [_ [Hlive [_ [Hsm [Hgn [_ [Hsig _]]]]]]].
    assert (F : animating (removeGiraffe a2) = animating a2 /\
                renderer (removeGiraffe a2) = renderer a2).
    { unfold removeGiraffe. rewrite Eg.
      destruct (disposeAll_frame (oid g) (children g) (scene_remove g a2))
        as [_ [_ [_ [_ [_ [_ [_ [_ [_ Hrd]]]]]]]]].
      assert (Ha : forall ms b,
        animating (fold_left (disposeMesh (oid g)) ms b) = animating b).
      { induction ms as [|m ms IH]; intro b; simpl; [reflexivity|].
        rewrite IH. reflexivity. }
      change (animating (fold_left (disposeMesh (oid g)) (children g)
                                   (scene_remove g a2)) = animating a2 /\
              renderer (fold_left (disposeMesh (oid g)) (children g)
                                  (scene_remove g a2)) = renderer a2).
      rewrite Ha, Hrd. unfold scene_remove.
      destruct (existsb (isObject (oid g)) (scene a2)); split; reflexivity. }
    destruct F as [Fa Fr].
    repeat split; try assumption; try congruence.
    intros r Hr. rewrite Fr. apply Hr2, Hr.
  - destruct HI2 as [_ _ _ Hact Hown _ _].
    unfold activeModel, activeResources in *. rewrite Eg in *.
    repeat split; try assumption.
    apply nil_of_no_member. intros r Hr. apply (Hown r Hr).
Qed.

Lemma destroy_releases_everything_witness :
  liveAfter (backend (ngOnDestroy (effect_redraw freshView))) = [].
Proof.
  exact (proj1 (proj2
    (destroy_releases_everything (effect_redraw freshView)
       (reach_step _ _
          (reach_init true (Some (mkContainer 800 600)) (fun _ => 0))
          (step_effect_redraw _))))).
Defined.

(** X10. Exporting an active model calls the serializer once, on that
    model, and touches neither the model nor the scene, the backend or the
    parameters.  What is saved follows the serializer's answer: an array
    buffer is saved as [my-plush-giraffe.glb] with type
    application/octet-stream, a JSON document as [my-plush-giraffe.gltf]
    with type text/plain, and on failure nothing is saved and one error
    line is logged. *)
Theorem downloadModel_outcomes (parse : Serializer) (a : App) (g : Group) :
  giraffe a = Some g ->
  let d := downloadModel parse a in
  exportsStarted d = exportsStarted a ++ [g] /\
  giraffe d = Some g /\ scene d = scene a /\ backend d = backend a /\
  signals d = signals a /\ entropy d = entropy a /\
  match parse g (mkOptions true) with
  | Done (ArrayBuffer result) =>
      downloads d
      = downloads a ++ [mkDownload (Bytes result) "application/octet-stream"
                                   "my-plush-giraffe.glb"] /\
      console d = console a
  | Done (JsonDocument output) =>
      downloads d
      = downloads a ++ [mkDownload (Text output) "text/plain"
                                   "my-plush-giraffe.gltf"] /\
      console d = console a
  | Failed error =>
      downloads d = downloads a /\
      console d
      = console a ++ [("An error happened during parsing " ++ error)%string]
  end.
Proof.
  intros Hg d; subst d. unfold downloadModel. rewrite Hg.
  destruct (parse g (mkOptions true)) as [[result|output]|error];
    repeat split; assumption.
Qed.

Lemma downloadModel_outcomes_witness :
  downloads
    (downloadModel (fun _ _ => Failed "boom") (redrawGiraffe freshView))
  = downloads (redrawGiraffe freshView).
Proof.
  exact (proj1 (proj2 (proj2 (proj2 (proj2 (proj2 (proj2
    (downloadModel_outcomes (fun _ _ => Failed "boom")
       (redrawGiraffe freshView) (nextModel freshView)
       (proj1 (redrawGiraffe_unfold freshView)))))))))).
Defined.

(** X11. In every reachable state either the view is set up, and then the
    projection matrix is built from the camera's current aspect and that
    aspect is what JavaScript's division of the render surface's width
    by its height gives (an infinity or [NaN] if the view was set up on a
    container of height zero); or the view was never set up, and then no
    model, no scene content, no backend event and no download exists. *)
Theorem view_stays_consistent (a : App) :
  Reachable a -> viewConsistent a.
Proof.
  induction 1 as [canvas container rnd|a a' _ IH HS].
  - destruct canvas, container as [ct|]; unfold viewConsistent; simpl;
      repeat split.
  - destruct HS.
    1-8: exact IH.
    + unfold effect_redraw.
      destruct (isViewInitialized (signals a)) eqn:E; [|exact IH].
      destruct (redrawGiraffe_view a) as [Hc [Hr _]].
      destruct (redrawGiraffe_unfold a) as [_ [_ [_ [_ Hs]]]].
      unfold viewConsistent in *. rewrite Hc, Hr, Hs.
      destruct (camera a), (renderer a); try exact IH.
      destruct IH as [IH _]. congruence.
    + unfold effect_autoRotate.
      destruct (isViewInitialized (signals a)); exact IH.
    + unfold hostLayout. destruct (canvasContainerRef a); exact IH.
    + apply onResize_cases in H. destruct H as [->|H]; [exact IH|].
      destruct H as [ct [cam [rend [Hc [Hr [Hnz ->]]]]]].
      unfold viewConsistent in *. rewrite Hc, Hr in IH. simpl.
      destruct IH as [IH _]. repeat split. exact IH.
    + unfold downloadModel. destruct (giraffe a) as [g|] eqn:Hg.
      * unfold viewConsistent in *.
        destruct (parse g (mkOptions true)) as [[buf|doc]|err]; simpl;
          destruct (camera a), (renderer a); try exact IH;
          destruct IH as [_ [IH _]]; congruence.
      * exact IH.
    + destruct (ngOnDestroy_view a) as [Hc [Hs Hr]].
      unfold viewConsistent in *. rewrite Hc, Hs.
      destruct (camera a) as [cam|] eqn:Ec;
        destruct (renderer a) as [r|] eqn:Er; try contradiction.
      * rewrite (proj1 Hr r eq_refl). exact IH.
      * destruct IH as [Hv [Hg [Hb [Hsc Hd]]]].
        destruct (proj2 Hr eq_refl Hg) as [Hd' ->]. rewrite Hd'.
        destruct (animating a); simpl; repeat split; assumption.
Qed.

Lemma view_stays_consistent_witness :
  viewConsistent (effect_redraw freshView).
Proof.
  exact (view_stays_consistent _
           (reach_step _ _
              (reach_init true (Some (mkContainer 800 600)) (fun _ => 0))
              (step_effect_redraw _))).
Defined.

(** X12. If the canvas or its container is missing when the view is set
    up, the component stays inert whatever happens afterwards: no camera,
    renderer or scene content is ever created, no model is built, no
    random number is drawn, nothing reaches the backend and nothing is
    downloaded. *)
Theorem missing_view_stays_inert (canvas : bool)
    (container : option Container) (rnd : RandomSource) (a : App) :
  canvas = false \/ container = None ->
  Run (ngAfterViewInit (newComponent canvas container rnd)) a ->
  isViewInitialized (signals a) = false /\
  camera a = None /\ renderer a = None /\ scene a = [] /\
  giraffe a = None /\ backend a = [] /\ downloads a = [] /\
  exportsStarted a = [] /\ entropy a = rnd /\ nextId a = 0%nat.
Proof.
  intros Hmiss HR.
  induction HR as [|a a' _ IH HS].
  - destruct Hmiss as [-> | ->]; [|destruct canvas]; repeat split.
  - destruct IH as [Hv [Hc [Hr [Hs [Hg [Hb [Hd [He [Hn Hi]]]]]]]]].
    destruct HS.
    1-8: repeat split; assumption.
    + unfold effect_redraw. rewrite Hv. repeat split; assumption.
    + unfold effect_autoRotate. rewrite Hv. repeat split; assumption.
    + unfold hostLayout. destruct (canvasContainerRef a);
        repeat split; assumption.
    + apply onResize_cases in H. destruct H as [->|H].
      * repeat split; assumption.
      * destruct H as [ct [cam [rend [Hcam _]]]]. congruence.
    + unfold downloadModel. rewrite Hg. repeat split; assumption.
    + destruct (ngOnDestroy_view a) as [_ [_ [_ Hnone]]].
      destruct (Hnone Hr Hg) as [-> _].
      destruct (animating a); repeat split; assumption.
Qed.

Lemma missing_view_stays_inert_witness :
  giraffe (effect_redraw
             (onNeckLengthChange 9
                (ngAfterViewInit (newComponent false None (fun _ => 0)))))
  = None.
Proof.
  refine (proj1 (proj2 (proj2 (proj2 (proj2
    (missing_view_stays_inert false None (fun _ => 0) _ (or_introl eq_refl)
       (run_step _ _ _
          (run_step _ _ _ (run_here _) (step_neck 9 _))
          (step_effect_redraw _)))))))).
Defined.

Lemma Inv_no_model (a : App) :
  Inv a -> giraffe a = None -> liveAfter (backend a) = [].
Proof.
  intros [_ _ _ _ Hown _ _] Hg. unfold activeResources in Hown.
  rewrite Hg in Hown. apply nil_of_no_member. intros r Hr. apply (Hown r Hr).
Qed.

Lemma ngOnDestroy_giraffe (a : App) : giraffe (ngOnDestroy a) = None.
Proof.
  unfold ngOnDestroy.
  match goal with
  | |- giraffe (match giraffe ?x with _ => _ end) = None =>
      destruct (giraffe x) eqn:E; [|exact E]
  end.
  unfold removeGiraffe. rewrite E. reflexivity.
Qed.

Lemma fullyLive_frame (a b : App) :
  backend b = backend a -> giraffe b = giraffe a -> fullyLive a -> fullyLive b.
Proof. unfold fullyLive. intros -> ->. trivial. Qed.

Lemma redrawGiraffe_live (a : App) :
  Inv a ->
  liveAfter (backend (redrawGiraffe a))
  = map (pair (nextId a)) (rev constructed).
Proof.
  intro HI.
  destruct (redrawGiraffe_unfold a) as [_ [Hb _]].
  pose proof (removeGiraffe_spec a HI) as Hrem. cbv zeta in Hrem.
  destruct Hrem as [_ [Hlive _]].
  destruct (creations_spec (nextId a) _ Hlive
              (inv_live _ (removeGiraffe_Inv a HI))) as [_ [Hc _]].
  rewrite Hb, liveAfter_added. exact Hc.
Qed.

(** X13. In every reachable state an active model is one that
    [createGiraffe] built: it has its two eye meshes and its two merged
    meshes, with 10 and 20 primitives, and exactly its six disposable
    objects are live, none disposed yet; without an active model no object
    is live. *)
Theorem active_model_is_fully_live (a : App) :
  Reachable a ->
  match giraffe a with
  | Some g =>
      fullyLive a /\
      liveAfter (backend a)
      = [ (oid g, MergedSpotGeo); (oid g, MergedGiraffeGeo); (oid g, EyeGeo);
          (oid g, EyeMaterial); (oid g, SpotMaterial); (oid g, GiraffeMaterial) ] /\
      length (children g) = 4%nat /\
      length (eyeMeshes g) = 2%nat /\
      length (structuralGroup g) = 10%nat /\
      length (patternGroup g) = 20%nat
  | None => liveAfter (backend a) = []
  end.
Proof.
  intro HR.
  assert (HF : fullyLive a).
  { induction HR as [canvas container rnd|a a' HR IH HS].
    - destruct canvas, container; reflexivity.
    - pose proof (Reachable_Inv a HR) as HI.
      destruct HS;
        try (apply (fullyLive_frame a); [reflexivity|reflexivity|exact IH]).
      + unfold effect_redraw.
        destruct (isViewInitialized (signals a)); [|exact IH].
        unfold fullyLive.
        rewrite (proj1 (redrawGiraffe_unfold a)), (redrawGiraffe_live a HI).
        split; [|reflexivity]. unfold nextModel. do 8 eexists. reflexivity.
      + unfold effect_autoRotate.
        destruct (isViewInitialized (signals a)); exact IH.
      + unfold hostLayout. destruct (canvasContainerRef a); exact IH.
      + destruct (onResize_frame a a' H) as [Hb [_ [Hg _]]].
        apply (fullyLive_frame a); assumption.
      + unfold downloadModel. destruct (giraffe a) as [g|] eqn:Hg.
        * destruct (parse g (mkOptions true)) as [[buf|doc]|err];
            apply (fullyLive_frame a); auto.
        * apply (fullyLive_frame a); auto.
      + unfold fullyLive. rewrite ngOnDestroy_giraffe.
        apply Inv_no_model; [apply ngOnDestroy_Inv, HI|].
        apply ngOnDestroy_giraffe. }
  unfold fullyLive in *.
  destruct (giraffe a) as [g|]; [|exact HF].
  destruct HF as [[id [n [l [h [hs [c [sc [rnd ->]]]]]]]] Hlive].
  split; [split; [do 8 eexists; reflexivity|exact Hlive]|].
  split; [exact Hlive|]. repeat split; reflexivity.
Qed.

Lemma active_model_is_fully_live_witness :
  match giraffe (effect_redraw freshView) with
  | Some g => length (children g) = 4%nat
  | None => True
  end.
Proof.
  pose proof (active_model_is_fully_live (effect_redraw freshView)
           (reach_step _ _
              (reach_init true (Some (mkContainer 800 600)) (fun _ => 0))
              (step_effect_redraw _))) as H.
  destruct (giraffe (effect_redraw freshView)); [|exact I].
  exact (proj1 (proj2 (proj2 H))).
Defined.

(** X14. Resizing is idempotent: running [onResize] again on the state it
    returned, with the container unchanged, returns that same state. *)
Theorem onResize_idempotent (a a' : App) :
  onResize a = Normal a' -> onResize a' = Normal a'.
Proof.
  intro H. destruct (onResize_cases a a' H) as [->|Hc]; [exact H|].
  destruct Hc as [ct [cam [rend [Hcam [Hrend [[Hct [Hw Hh]] ->]]]]]].
  unfold onResize. simpl. rewrite Hct. simpl.
  apply Z.eqb_neq in Hw. apply Z.eqb_neq in Hh. rewrite Hw, Hh. simpl.
  reflexivity.
Qed.

Lemma onResize_idempotent_witness :
  exists a', onResize (hostLayout 1024 768 freshView) = Normal a' /\
             onResize a' = Normal a'.
Proof.
  eexists. split; [reflexivity|].
  apply (onResize_idempotent (hostLayout 1024 768 freshView)). reflexivity.
Defined.

(** ** The download link, verified *)

Lemma removeFirst_fresh (n : nat) (l : list nat) :
  Forall (fun x => (x < n)%nat) l -> Dom.removeFirst n (l ++ [n]) = l.
Proof.
  induction 1 as [|x l Hx _ IH]; simpl.
  - rewrite Nat.eqb_refl. reflexivity.
  - destruct (Nat.eqb x n) eqn:E; [apply Nat.eqb_eq in E; lia|].
    rewrite IH. reflexivity.
Qed.

Lemma resolve_fresh (u : nat) (b : Dom.Blob) (l : list (nat * Dom.Blob)) :
  Forall (fun e => (fst e < u)%nat) l -> Dom.resolve u (l ++ [(u, b)]) = Some b.
Proof.
  induction 1 as [|[x bx] l Hx _ IH]; simpl.
  - rewrite Nat.eqb_refl. reflexivity.
  - simpl in Hx. destruct (Nat.eqb x u) eqn:E; [apply Nat.eqb_eq in E; lia|].
    exact IH.
Qed.

Lemma revoke_fresh (u : nat) (b : Dom.Blob) (l : list (nat * Dom.Blob)) :
  Forall (fun e => (fst e < u)%nat) l ->
  filter (fun e => negb (Nat.eqb (fst e) u)) (l ++ [(u, b)]) = l.
Proof.
  induction 1 as [|[x bx] l Hx _ IH]; simpl.
  - rewrite Nat.eqb_refl. reflexivity.
  - simpl in Hx. destruct (Nat.eqb x u) eqn:E; [apply Nat.eqb_eq in E; lia|].
    simpl. rewrite IH. reflexivity.
Qed.

(** X17. [save] starts exactly one download, of the blob it was given
    under the file name it was given, and leaves no trace: the page body
    has the children it had before (the temporary link is gone) and the
    object URL made for the blob is revoked, so the live URLs are those
    there were before.  [saveArrayBuffer] so saves its bytes with type
    application/octet-stream and [saveString] its text with type
    text/plain, the very entries the component's download log records. *)
Theorem save_leaves_no_trace (blob : Dom.Blob) (filename : string)
    (d : Dom.Document) :
  Dom.wellFormed d ->
  let d' := Dom.save blob filename d in
  Dom.body d' = Dom.body d /\
  Dom.objectURLs d' = Dom.objectURLs d /\
  Dom.started d'
  = Dom.started d
    ++ [mkDownload (Dom.blobParts blob) (Dom.type blob) filename] /\
  Dom.wellFormed d' /\
  (forall buffer a,
      Dom.started (Dom.saveArrayBuffer buffer filename d)
      = Dom.started d ++ [mkDownload (Bytes buffer) "application/octet-stream"
                                     filename] /\
      downloads (saveArrayBuffer buffer filename a)
      = downloads a ++ [mkDownload (Bytes buffer) "application/octet-stream"
                                   filename]) /\
  (forall text a,
      Dom.started (Dom.saveString text filename d)
      = Dom.started d ++ [mkDownload (Text text) "text/plain" filename] /\
      downloads (saveString text filename a)
      = downloads a ++ [mkDownload (Text text) "text/plain" filename]).
Proof.
  intros [Hbody Hurls].
  assert (G : forall b,
    let d' := Dom.save b filename d in
    Dom.body d' = Dom.body d /\
    Dom.objectURLs d' = Dom.objectURLs d /\
    Dom.started d'
    = Dom.started d ++ [mkDownload (Dom.blobParts b) (Dom.type b) filename] /\
    Dom.nextNode d' = S (Dom.nextNode d) /\
    Dom.nextURL d' = S (Dom.nextURL d)).
  { intro b. unfold Dom.save, Dom.createElement, Dom.appendChild,
      Dom.createObjectURL, Dom.click, Dom.revokeObjectURL, Dom.removeChild.
    simpl. rewrite (resolve_fresh _ _ _ Hurls). simpl.
    rewrite (revoke_fresh _ _ _ Hurls), (removeFirst_fresh _ _ Hbody).
    repeat split. }
  cbv zeta in *.
  destruct (G blob) as [H1 [H2 [H3 [H4 H5]]]].
  split; [exact H1|]. split; [exact H2|]. split; [exact H3|].
  split.
  - unfold Dom.wellFormed. rewrite H1, H2, H4, H5. split.
    + eapply Forall_impl; [|exact Hbody]. simpl. intros; lia.
    + eapply Forall_impl; [|exact Hurls]. simpl. intros; lia.
  - split; intros x a; (split; [|reflexivity]).
    + exact (proj1 (proj2 (proj2 (G (Dom.mkBlob (Bytes x) _))))).
    + exact (proj1 (proj2 (proj2 (G (Dom.mkBlob (Text x) _))))).
Qed.

Lemma save_leaves_no_trace_witness :
  Dom.wellFormed Dom.emptyDocument /\
  Dom.body (Dom.save (Dom.mkBlob (Text "{}") "text/plain") "g.gltf"
                     Dom.emptyDocument) = [].
Proof.
  assert (H : Dom.wellFormed Dom.emptyDocument) by (split; constructor).
  split; [exact H|].
  exact (proj1 (save_leaves_no_trace (Dom.mkBlob (Text "{}") "text/plain")
                  "g.gltf" Dom.emptyDocument H)).
Defined.
